(** * braindecode.datasets.base: dataset containers

    A shallow embedding of [braindecode/datasets/base.py] and a verification
    of its indexing, description and splitting behaviour.

    The module wraps three libraries.  Their objects are modelled by the
    observations the source makes on them:
    - [mne]: a [Raw] or an [Epochs] object is a record of the attributes the
      source reads ([info['sfreq']], [ch_names], [times], ...);
    - [pandas]: a [Series] is a finite map from labels to values, a
      [DataFrame] a list of such rows under a set of columns, each row with
      an index label; both are mutable objects that live in a store and are
      passed around by reference;
    - [torch.utils.data.ConcatDataset]: the base class of
      [BaseConcatDataset]; its [cumsum], [__init__], [__len__] and
      [__getitem__] are embedded as they are written in torch.

    Scope of the model.  A description row stores the values it is given, as
    a Series of dtype [object] does.  When pandas holds a row in a numeric
    type, a write can convert the values of the row, or be refused; the
    statements about reads of a description are therefore made for reads
    that return, and for values that a conversion to [float64] leaves as
    they are ([float64_exact]).  Description rows are unnamed Series (as
    [pd.Series(dict)] builds them), so that the table made of them at
    construction has the default index [0 .. n-1]; a table of the store can
    carry any integer index, and the statements about [split] by a property
    say which index they are made for.  A concatenation holds [BaseDataset]
    and [WindowsDataset] objects, which are represented by their fields, the
    rows and tables they refer to being shared through the store. *)

From Stdlib Require Import QArith Qcanon.
From stdpp Require Import gmap strings list fin_maps.

Local Open Scope Z_scope.

(** ** Python values, exceptions, results *)

(** Scalars stored in descriptions and metadata.  A number is represented by
    its value: Python's [==] and [hash] identify [1] and [1.0], which is what
    [set], [dict] and [groupby] compare with.  [PyNaN] is the missing-value
    marker of pandas. *)
Inductive pyval :=
  | PyNone
  | PyNaN
  | PyNum (q : Qc)
  | PyStr (s : string).

Global Instance pyval_eq_dec : EqDecision pyval.
Proof. solve_decision. Defined.

Global Instance pyval_inhabited : Inhabited pyval := populate PyNone.

Definition pyval_to_sum (v : pyval) : (unit + unit) + (Qc + string) :=
  match v with
  | PyNone => inl (inl ())
  | PyNaN => inl (inr ())
  | PyNum q => inr (inl q)
  | PyStr s => inr (inr s)
  end.

Definition pyval_of_sum (x : (unit + unit) + (Qc + string)) : pyval :=
  match x with
  | inl (inl _) => PyNone
  | inl (inr _) => PyNaN
  | inr (inl q) => PyNum q
  | inr (inr s) => PyStr s
  end.

Global Instance pyval_countable : Countable pyval.
Proof. by apply (inj_countable' pyval_to_sum pyval_of_sum); intros []. Defined.

(** [int] to value, as for [len(...)] results and [enumerate] counters. *)
Definition PyInt (z : Z) : pyval := PyNum (Q2Qc (inject_Z z)).

(** pandas' [isna]. *)
Definition isna (v : pyval) : bool :=
  match v with
  | PyNone | PyNaN => true
  | _ => false
  end.

(** [KeyErrorLabels missing] is the [KeyError] that a lookup with a list of
    labels raises: one exception for the whole lookup, whose message names
    the labels that were not found. *)
Inductive exn :=
  | ValueError (msg : string)
  | TypeError (msg : string)
  | KeyError (key : pyval)
  | KeyErrorLabels (missing : list string)
  | IndexError
  | AttributeError (attr : string)
  | AssertionError (msg : string).

Global Instance exn_eq_dec : EqDecision exn.
Proof. solve_decision. Defined.

Inductive result (A : Type) :=
  | Ok (a : A)
  | Raise (e : exn).
Global Arguments Ok {A} a.
Global Arguments Raise {A} e.

Global Instance result_fmap : FMap result := λ A B f r,
  match r with
  | Ok a => Ok (f a)
  | Raise e => Raise e
  end.
Global Instance result_ret : MRet result := λ A a, Ok a.
Global Instance result_bind : MBind result := λ A B f r,
  match r with
  | Ok a => f a
  | Raise e => Raise e
  end.

(** Python list indexing [l[i]]: negative indices count from the end. *)
Definition py_index {A} (l : list A) (i : Z) : result A :=
  let n := Z.of_nat (length l) in
  let j := if decide (i < 0) then n + i else i in
  if decide (0 ≤ j) then
    match l !! Z.to_nat j with
    | Some a => Ok a
    | None => Raise IndexError
    end
  else Raise IndexError.

(** [len(set(xs))]: the number of distinct elements. *)
Definition len_set `{EqDecision A} (xs : list A) : nat :=
  length (remove_dups xs).

(** ** pandas objects and the store *)

(** A [Series]: label ↦ value.  The order of the labels plays no role in the
    operations the source performs. *)
Abbreviation row := (gmap string pyval).

(** A [DataFrame]: the row at position [i] is the [i]-th element of
    [fr_rows] and carries the [i]-th label of [fr_index]; a cell whose label
    is missing from the row reads as NaN.  The index labels are integers:
    the positions [0 .. n-1] of the default [RangeIndex], or other integers
    when the table was built from rows that have integer names. *)
Record frame := Frame {
  fr_index : list Z;
  fr_columns : gset string;
  fr_rows : list row;
}.

(** The labels of a [RangeIndex] of length [n]. *)
Definition range_index (n : nat) : list Z := Z.of_nat <$> seq 0 n.

Global Instance frame_eq_dec : EqDecision frame.
Proof. solve_decision. Defined.

Definition cell (r : row) (c : string) : pyval := default PyNaN (r !! c).

Abbreviation loc := nat.

(** The store: every [Series] and [DataFrame] object has a location; datasets
    hold locations, so that two holders of one object see each other's
    writes. *)
Record store := Store {
  series : gmap loc row;
  frames : gmap loc frame;
}.

(** A reference to a Python object, tagged with the class that
    [isinstance] sees. *)
Inductive pyref :=
  | RSeries (l : loc)
  | RDataFrame (l : loc)
  | ROther (v : pyval).

(** ** Stateful computations that may raise *)

Definition M (A : Type) : Type := store → result A * store.

Global Instance M_ret : MRet M := λ A a σ, (Ok a, σ).
Global Instance M_bind : MBind M := λ A B f m σ,
  match m σ with
  | (Ok a, σ') => f a σ'
  | (Raise e, σ') => (Raise e, σ')
  end.

Definition raise {A} (e : exn) : M A := λ σ, (Raise e, σ).
Definition lift {A} (r : result A) : M A := λ σ, (r, σ).
Definition get_store : M store := λ σ, (Ok σ, σ).

(** [try: m except Exception as e: ...]: the outcome of [m] as a value. *)
Definition attempt {A} (m : M A) : M (result A) := λ σ,
  let '(r, σ') := m σ in (Ok r, σ').

(** [s[k] = v] on the Series at [l]: the row stores the value as given (a
    row of dtype [object]). *)
Definition series_setitem (l : loc) (k : string) (v : pyval) : M unit := λ σ,
  (Ok (), Store (alter (<[k := v]>) l (series σ)) (frames σ)).

(** The current content of the Series at [l].  Locations handed out by the
    operations below are always allocated; an unallocated one reads as the
    empty row. *)
Definition series_at (σ : store) (l : loc) : row := default ∅ (series σ !! l).
Definition series_read (l : loc) : M row := λ σ, (Ok (series_at σ l), σ).

(** [df[c] = v] with a scalar [v] on the DataFrame at [l]: the whole column
    is set. *)
Definition frame_set_column (c : string) (v : pyval) (f : frame) : frame :=
  Frame (fr_index f) ({[c]} ∪ fr_columns f) (<[c := v]> <$> fr_rows f).
Definition frame_setitem (l : loc) (c : string) (v : pyval) : M unit := λ σ,
  (Ok (), Store (series σ) (alter (frame_set_column c v) l (frames σ))).

Definition frame_at (σ : store) (l : loc) : frame :=
  default (Frame [] ∅ []) (frames σ !! l).
Definition frame_read (l : loc) : M frame := λ σ, (Ok (frame_at σ l), σ).

(** [pd.DataFrame(rows)] for a list of the contents of unnamed Series: a
    new object, indexed by position. *)
Definition frame_of_rows (rows : list row) : frame :=
  Frame (range_index (length rows)) (⋃ (dom <$> rows)) rows.
Definition frame_new (f : frame) : M loc := λ σ,
  let l := fresh (dom (frames σ)) in
  (Ok l, Store (series σ) (<[l := f]> (frames σ))).

(** [s[k]] on a row. *)
Definition row_getitem (r : row) (k : string) : result pyval :=
  match r !! k with
  | Some v => Ok v
  | None => Raise (KeyError (PyStr k))
  end.

(** [s[keys].to_list()] with a list of labels: the values in the order of
    [keys]; if some labels are missing, the lookup as a whole raises. *)
Definition row_getitems (r : row) (keys : list string) : result (list pyval) :=
  let missing := filter (λ k, r !! k = None) keys in
  if decide (missing = []) then mapM (row_getitem r) keys
  else Raise (KeyErrorLabels missing).

(** ** mne objects *)

Abbreviation array := (list (list Qc)).

(** [mne.io.Raw], as far as the source observes it. *)
Record Raw := {
  raw_sfreq : Qc;                               (* raw.info['sfreq'] *)
  raw_ch_names : list string;                   (* raw.ch_names *)
  raw_times : list Qc;                          (* raw.times *)
  raw_len : nat;                                (* len(raw) *)
  raw_getitem : Z → result (array * list Qc);   (* raw[:, index] *)
}.

(** [mne.Epochs], as far as the source observes it. *)
Record Epochs := {
  ep_sfreq : Qc;                                (* windows.info['sfreq'] *)
  ep_ch_names : list string;                    (* windows.ch_names *)
  ep_times : list Qc;                           (* windows.times *)
  ep_events : list (Z * Z * Z);                 (* windows.events *)
  ep_get_data : Z → result (list array);        (* windows.get_data(item=i) *)
  ep_metadata : list row;                       (* windows.metadata, by row *)
}.

(** What [__getitem__] of a dataset returns. *)
Inductive item :=
  | RawItem (x : array) (y : pyval)
  | WindowItem (x : array) (y : pyval) (ind : list pyval).

Local Open Scope string_scope.

(** ** [class BaseDataset] *)
Module BaseDataset.

Record t := mk {
  raw : Raw;
  _description : loc;
  target : pyval;
}.

(** [@property description] *)
Definition description (self : t) : M loc :=
  _ ← series_setitem (_description self) "sfreq" (PyNum (raw_sfreq (raw self)));
  _ ← series_setitem (_description self) "n_channels"
        (PyInt (Z.of_nat (length (raw_ch_names (raw self)))));
  mret (_description self).

(** [@description.setter]; the result is the new value of
    [self._description].  Only the first of the two adjacent literals of
    the message is an f-string. *)
Definition description_setter (desc : pyref) : M loc :=
  match desc with
  | RSeries l => mret l
  | _ => raise (TypeError "description must be a pandas Series, got {type(desc)}.")
  end.

(** While [__init__] runs, [self.target] is not assigned yet; the getter
    does not read it. *)
Definition __init__ (raw : Raw) (description_ : pyref)
    (target_name : option string) : M t :=
  d ← description_setter description_;
  let self := mk raw d PyNone in
  match target_name with
  | None => mret (mk raw d PyNone)
  | Some name =>
      r ← description self ≫= series_read;
      if decide (name ∈ dom r) then
        r' ← description self ≫= series_read;
        v ← lift (row_getitem r' name);
        mret (mk raw d v)
      else raise (ValueError ("'" +:+ name +:+ "' not in description."))
  end.

Definition __getitem__ (self : t) (index : Z) : result item :=
  xt ← raw_getitem (raw self) index;
  mret (RawItem xt.1 (target self)).

(** Attribute assignments on an existing object: [self.raw = raw'] and
    [self.description = desc] (through the setter). *)
Definition set_raw (self : t) (raw' : Raw) : t :=
  mk raw' (_description self) (target self).

Definition set_description (self : t) (desc : pyref) : M t :=
  d ← description_setter desc;
  mret (mk (raw self) d (target self)).

Definition __len__ (self : t) : nat := raw_len (raw self).

End BaseDataset.

(** ** [class WindowsDataset] *)
Module WindowsDataset.

Record t := mk {
  windows : Epochs;
  _description : loc;
}.

Definition md_keys : list string :=
  ["i_supercrop_in_trial"; "i_start_in_trial"; "i_stop_in_trial"].

Definition description (self : t) : M loc :=
  _ ← series_setitem (_description self) "sfreq" (PyNum (ep_sfreq (windows self)));
  _ ← series_setitem (_description self) "n_channels"
        (PyInt (Z.of_nat (length (ep_ch_names (windows self)))));
  mret (_description self).

Definition description_setter (desc : pyref) : M loc :=
  match desc with
  | RSeries l => mret l
  | _ => raise (TypeError "description must be a pandas Series, got {type(desc)}.")
  end.

Definition __init__ (windows : Epochs) (description_ : pyref) : M t :=
  d ← description_setter description_;
  mret (mk windows d).

Definition __getitem__ (self : t) (index : Z) : result item :=
  xs ← ep_get_data (windows self) index;
  x ← py_index xs 0;
  md ← py_index (ep_metadata (windows self)) index;
  y ← row_getitem md "target";
  ind ← row_getitems md md_keys;
  mret (WindowItem x y ind).

Definition __len__ (self : t) : nat := length (ep_events (windows self)).


End WindowsDataset.

(** ** Datasets that a concatenation holds

    [list_of_ds] is a "list of BaseDataset or WindowsDataset". *)
Inductive dataset :=
  | DBase (d : BaseDataset.t)
  | DWindows (w : WindowsDataset.t).

(** [len(ds)], [ds[i]], [ds.description] and [hasattr(ds, 'raw')] by dynamic
    dispatch. *)
Definition ds_len (ds : dataset) : nat :=
  match ds with
  | DBase d => BaseDataset.__len__ d
  | DWindows w => WindowsDataset.__len__ w
  end.

Definition ds_getitem (ds : dataset) (i : Z) : result item :=
  match ds with
  | DBase d => BaseDataset.__getitem__ d i
  | DWindows w => WindowsDataset.__getitem__ w i
  end.

Definition ds_description (ds : dataset) : M loc :=
  match ds with
  | DBase d => BaseDataset.description d
  | DWindows w => WindowsDataset.description w
  end.

Definition hasattr_raw (ds : dataset) : bool :=
  match ds with
  | DBase _ => true
  | DWindows _ => false
  end.

(** The recording behind a dataset, whichever attribute holds it. *)
Inductive backend :=
  | BRaw (r : Raw)
  | BWindows (w : Epochs).

(** [getattr(ds, ds_type)] for [ds_type] one of ['raw'], ['windows']. *)
Definition ds_getattr (ds : dataset) (ds_type : string) : result backend :=
  match ds with
  | DBase d =>
      if decide (ds_type = "raw") then Ok (BRaw (BaseDataset.raw d))
      else Raise (AttributeError ds_type)
  | DWindows w =>
      if decide (ds_type = "windows") then Ok (BWindows (WindowsDataset.windows w))
      else Raise (AttributeError ds_type)
  end.

Definition info_sfreq (b : backend) : Qc :=
  match b with
  | BRaw r => raw_sfreq r
  | BWindows w => ep_sfreq w
  end.

Definition ch_names (b : backend) : list string :=
  match b with
  | BRaw r => raw_ch_names r
  | BWindows w => ep_ch_names w
  end.

Definition times (b : backend) : list Qc :=
  match b with
  | BRaw r => raw_times r
  | BWindows w => ep_times w
  end.

(** ** [bisect.bisect_right] *)

(** The loop [while lo < hi: mid = (lo+hi)//2; ...]; [fuel] bounds the number
    of iterations, [length a] of them are enough (see [bisect_right_count]). *)
Fixpoint bisect_loop (fuel : nat) (a : list Z) (x : Z) (lo hi : nat) : nat :=
  match fuel with
  | O => lo
  | S fuel' =>
      if decide (lo < hi)%nat then
        let mid := ((lo + hi) `div` 2)%nat in
        if decide (x < a !!! mid) then bisect_loop fuel' a x lo mid
        else bisect_loop fuel' a x (mid + 1)%nat hi
      else lo
  end.

Definition bisect_right (a : list Z) (x : Z) : nat :=
  bisect_loop (length a) a x 0 (length a).

(** ** [class torch.utils.data.ConcatDataset] *)
Module ConcatDataset.

(** [r, s = [], 0; for e in sequence: l = len(e); r.append(l + s); s += l] *)
Fixpoint cumsum_from (s : Z) (sequence : list dataset) : list Z :=
  match sequence with
  | [] => []
  | e :: sequence' =>
      let l := Z.of_nat (ds_len e) in
      (l + s) :: cumsum_from (s + l) sequence'
  end.

Definition cumsum (sequence : list dataset) : list Z := cumsum_from 0 sequence.

Record t := mk {
  datasets : list dataset;
  cumulative_sizes : list Z;
}.

Definition __init__ (datasets : list dataset) : result t :=
  if decide (0 < length datasets)%nat then Ok (mk datasets (cumsum datasets))
  else Raise (AssertionError "datasets should not be an empty iterable").

Definition __len__ (self : t) : result Z :=
  py_index (cumulative_sizes self) (-1).

Definition __getitem__ (self : t) (idx : Z) : result item :=
  idx ← (if decide (idx < 0) then
           n ← __len__ self;
           if decide (- idx > n) then
             Raise (ValueError
               "absolute value of index should not exceed dataset length")
           else Ok (n + idx)
         else Ok idx);
  let dataset_idx := bisect_right (cumulative_sizes self) idx in
  sample_idx ← (if decide (dataset_idx = 0%nat) then Ok idx
                else
                  c ← py_index (cumulative_sizes self)
                        (Z.of_nat dataset_idx - 1);
                  Ok (idx - c));
  ds ← py_index (datasets self) (Z.of_nat dataset_idx);
  ds_getitem ds sample_idx.

End ConcatDataset.

(** ** pandas [groupby(by).groups]

    One group per distinct value of the column, with the index labels of the
    rows that carry it, in the order of the rows; rows whose value is missing
    belong to no group.  pandas lists the groups sorted by key; here they come
    in order of first occurrence, the returned [dict] is read by key only. *)
Definition group_labels (index : list Z) (vals : list pyval) (v : pyval)
    : list Z :=
  (filter (λ lv, lv.2 = v) (zip index vals)).*1.

Definition group_keys (vals : list pyval) : list pyval :=
  remove_dups (filter (λ v, isna v = false) vals).

Definition groupby_groups (f : frame) (by_ : string)
    : result (list (pyval * list Z)) :=
  if decide (by_ ∈ fr_columns f) then
    let vals := (λ r, cell r by_) <$> fr_rows f in
    Ok ((λ v, (v, group_labels (fr_index f) vals v)) <$> group_keys vals)
  else Raise (KeyError (PyStr by_)).

(** [{k: v for k, v in items}]: a later item replaces an earlier one with
    the same key. *)
Definition dict_of_items {V} (items : list (pyval * V)) : gmap pyval V :=
  foldl (λ m kv, <[kv.1 := kv.2]> m) ∅ items.

(** [enumerate(xs)] *)
Definition enumerate {A} (xs : list A) : list (pyval * A) :=
  imap (λ i x, (PyInt (Z.of_nat i), x)) xs.

(** ** [class BaseConcatDataset(ConcatDataset)] *)
Module BaseConcatDataset.

Record t := mk {
  super : ConcatDataset.t;
  _description : loc;
}.

Definition datasets (self : t) : list dataset :=
  ConcatDataset.datasets (super self).

Definition __len__ (self : t) : result Z := ConcatDataset.__len__ (super self).

Definition __getitem__ (self : t) (idx : Z) : result item :=
  ConcatDataset.__getitem__ (super self) idx.

(** [@description.setter] *)
Definition description_setter (new_desc : pyref) : M loc :=
  match new_desc with
  | RDataFrame l => mret l
  | _ => raise (TypeError
           "description must be a pandas DataFrame, got {type(new_desc)}.")
  end.

(** [self.description = new_desc] on an existing object. *)
Definition set_description (self : t) (new_desc : pyref) : M t :=
  d ← description_setter new_desc;
  mret (mk (super self) d).

(** [pd.DataFrame(ds.description for ds in list_of_ds)]: the generator is
    exhausted first, which runs every child's getter; the rows are then
    copied from the Series as they are at that point. *)
Definition __init__ (list_of_ds : list dataset) : M t :=
  s ← lift (ConcatDataset.__init__ list_of_ds);
  ls ← mapM ds_description list_of_ds;
  σ ← get_store;
  f ← frame_new (frame_of_rows (series_at σ <$> ls));
  d ← description_setter (RDataFrame f);
  mret (mk s d).

Definition ds_type_of (datasets : list dataset) : string :=
  if decide ((list_to_set (hasattr_raw <$> datasets) : gset bool) = {[true]})
  then "raw" else "windows".

(** [@property description] *)
Definition description (self : t) : M loc :=
  let ds_type := ds_type_of (datasets self) in
  fs ← lift (mapM (λ ds, b ← ds_getattr ds ds_type; mret (info_sfreq b))
               (datasets self));
  n_channels ← lift (mapM (λ ds, b ← ds_getattr ds ds_type;
                                 mret (length (ch_names b)))
                       (datasets self));
  n_times ← lift (mapM (λ ds, b ← ds_getattr ds ds_type;
                              mret (length (times b)))
                    (datasets self));
  if decide (1 < len_set fs)%nat then
    raise (ValueError "Recordings have different sampling rates.")
  else if decide (1 < len_set n_channels)%nat then
    raise (ValueError "Recordings have different number of channels.")
  else if decide (1 < len_set n_times)%nat then
    raise (ValueError "Recordings have different window lengths.")
  else
    fs0 ← lift (py_index fs 0);
    _ ← frame_setitem (_description self) "sfreq" (PyNum fs0);
    n_channels0 ← lift (py_index n_channels 0);
    _ ← frame_setitem (_description self) "n_channels"
          (PyInt (Z.of_nat n_channels0));
    n_times0 ← lift (py_index n_times 0);
    _ ← frame_setitem (_description self) "n_times"
          (PyInt (Z.of_nat n_times0));
    mret (_description self).

(** The comprehension that [split] returns:
    [{split_name: BaseConcatDataset([self.datasets[ds_ind] ...]) ...}]. *)
Definition split_build (self : t) (split_ids : list (pyval * list Z))
    : M (gmap pyval t) :=
  parts ← mapM (λ '(split_name, ds_inds),
             children ← lift (mapM (py_index (datasets self)) ds_inds);
             c ← __init__ children;
             mret (split_name, c)) split_ids;
  mret (dict_of_items parts).

Definition split (self : t) (some_property : option string)
    (split_ids : option (list (list Z))) : M (gmap pyval t) :=
  match split_ids, some_property with
  | None, None =>
      raise (ValueError "Splitting requires defining ids or a property.")
  | None, Some prop =>
      f ← description self ≫= frame_read;
      split_ids' ← lift (groupby_groups f prop);
      split_build self split_ids'
  | Some ids, _ => split_build self (enumerate ids)
  end.

End BaseConcatDataset.

(** ** Notions used in the statements *)

(** The positions of the rows that carry the value [v], in increasing
    order. *)
Definition positions (vals : list pyval) (v : pyval) : list Z :=
  Z.of_nat <$> filter (λ i, vals !! i = Some v) (seq 0 (length vals)).

(** What a read of [description] writes into the row. *)
Definition refresh (sfreq : Qc) (n_channels : nat) (r : row) : row :=
  <["n_channels" := PyInt (Z.of_nat n_channels)]> (<["sfreq" := PyNum sfreq]> r).

(** A value that a conversion to [float64] leaves as it is: a number
    [m * 2^e] with a mantissa of at most 53 bits (every Python [float], and
    every [int] of magnitude up to [2^53]), or a value that is not a number.
    On a row that pandas holds in a numeric type a write can convert the
    values the row already holds; such values are not changed by it. *)
Definition float64_exact (v : pyval) : Prop :=
  match v with
  | PyNum q =>
      ∃ m e : Z, (Z.abs m < 2 ^ 53)%Z ∧ (-1074 ≤ e ≤ 971)%Z
                 ∧ q = Q2Qc (inject_Z m * (2 # 1) ^ e)
  | _ => True
  end.

Definition exact_row (r : row) : Prop := map_Forall (λ _ v, float64_exact v) r.

(** The row at [l] carries the sampling rate [sfreq] and the channel count
    [n_channels]. *)
Definition carries (σ : store) (l : loc) (sfreq : Qc) (n_channels : nat)
    : Prop :=
  series_at σ l !! "sfreq" = Some (PyNum sfreq)
  ∧ series_at σ l !! "n_channels" = Some (PyInt (Z.of_nat n_channels)).


Definition is_ok {A} (r : result A) : bool :=
  match r with
  | Ok _ => true
  | Raise _ => false
  end.

(** The recording of a dataset, read from the attribute its class has. *)
Definition ds_backend (ds : dataset) : backend :=
  match ds with
  | DBase d => BRaw (BaseDataset.raw d)
  | DWindows w => BWindows (WindowsDataset.windows w)
  end.

(** All children of one kind. *)
Definition homogeneous (dss : list dataset) : Prop :=
  Forall (λ ds, hasattr_raw ds = true) dss
  ∨ Forall (λ ds, hasattr_raw ds = false) dss.

Global Instance homogeneous_dec dss : Decision (homogeneous dss).
Proof. unfold homogeneous. apply _. Defined.

(** What the children report. *)
Definition sfreqs (dss : list dataset) : list Qc :=
  (λ ds, info_sfreq (ds_backend ds)) <$> dss.
Definition channel_counts (dss : list dataset) : list nat :=
  (λ ds, length (ch_names (ds_backend ds))) <$> dss.
Definition time_counts (dss : list dataset) : list nat :=
  (λ ds, length (times (ds_backend ds))) <$> dss.

(** The three column assignments at the end of a successful read of the
    aggregate description. *)
Definition stamp (sfreq : Qc) (n_channels n_times : nat) (f : frame) : frame :=
  frame_set_column "n_times" (PyInt (Z.of_nat n_times))
    (frame_set_column "n_channels" (PyInt (Z.of_nat n_channels))
       (frame_set_column "sfreq" (PyNum sfreq) f)).

Definition nondecreasing (a : list Z) : Prop :=
  ∀ (i j : nat) (vi vj : Z),
    (i ≤ j)%nat → a !! i = Some vi → a !! j = Some vj → (vi ≤ vj)%Z.

(** The insertion point of [x] in [a]: everything before it is [≤ x],
    everything from it on is [> x]. *)
Definition insertion_point (a : list Z) (x : Z) (k : nat) : Prop :=
  (k ≤ length a)%nat
  ∧ (∀ (i : nat) (v : Z), (i < k)%nat → a !! i = Some v → (v ≤ x)%Z)
  ∧ (∀ (i : nat) (v : Z), (k ≤ i)%nat → a !! i = Some v → (x < v)%Z).

(** The sum of the first [k] lengths. *)
Definition prefix_sum (lens : list nat) (k : nat) : nat := sum_list (take k lens).

(** Prefix-sum resolution of a global index over the children's lengths:
    the first child whose range contains the index, and the offset in it. *)
Fixpoint resolve (lens : list nat) (i : nat) : option (nat * nat) :=
  match lens with
  | [] => None
  | n :: lens' =>
      if decide (i < n)%nat then Some (0%nat, i)
      else prod_map S id <$> resolve lens' (i - n)
  end.

(** The Series a dataset holds, and the effect of its getter on the store. *)
Definition ds_loc (ds : dataset) : loc :=
  match ds with
  | DBase d => BaseDataset._description d
  | DWindows w => WindowsDataset._description w
  end.

Definition ds_refresh_series (s : gmap loc row) (ds : dataset) : gmap loc row :=
  alter (refresh (info_sfreq (ds_backend ds))
           (length (ch_names (ds_backend ds)))) (ds_loc ds) s.

(** The getters of a list of datasets, run in order. *)
Definition refresh_series (dss : list dataset) (s : gmap loc row)
    : gmap loc row :=
  foldl ds_refresh_series s dss.

Definition refresh_all (dss : list dataset) (σ : store) : store :=
  Store (refresh_series dss (series σ)) (frames σ).

(** The last dataset of the list that holds the row at [l], if any, with the
    values its getter writes. *)
Definition last_write (dss : list dataset) (l : loc) : option (Qc * nat) :=
  foldl (λ acc ds,
           if decide (ds_loc ds = l)
           then Some (info_sfreq (ds_backend ds),
                      length (ch_names (ds_backend ds)))
           else acc) None dss.

(** The table that [BaseConcatDataset.__init__] builds, and the store it
    leaves: every child's row refreshed, in order, and the table at a new
    location. *)
Definition rows_of (dss : list dataset) (σ : store) : list row :=
  series_at σ <$> (ds_loc <$> dss).

Definition init_store (dss : list dataset) (σ : store) : store :=
  let σ1 := refresh_all dss σ in
  Store (series σ1)
    (<[fresh (dom (frames σ)) := frame_of_rows (rows_of dss σ1)]> (frames σ)).

Definition init_value (dss : list dataset) (σ : store) : BaseConcatDataset.t :=
  BaseConcatDataset.mk (ConcatDataset.mk dss (ConcatDataset.cumsum dss))
    (fresh (dom (frames σ))).

(** The concatenations that [split] builds for the named groups of children
    [groups], one after the other from the store [σ], and the store that is
    left. *)
Fixpoint parts_of (groups : list (pyval * list dataset)) (σ : store)
    : list (pyval * BaseConcatDataset.t) :=
  match groups with
  | [] => []
  | g :: groups' =>
      (g.1, init_value g.2 σ) :: parts_of groups' (init_store g.2 σ)
  end.

Definition store_after (groups : list (pyval * list dataset)) (σ : store)
    : store :=
  foldl (λ σ g, init_store g.2 σ) σ groups.

(** The named index list [si] selects the named, non-empty list of children
    [g]. *)
Definition selects (dss : list dataset) (si : pyval * list Z)
    (g : pyval * list dataset) : Prop :=
  si.1 = g.1 ∧ Forall2 (λ i d, py_index dss i = Ok d) si.2 g.2 ∧ g.2 ≠ [].

(** What a read of the aggregate description comes to, as far as it depends
    on the children: the exception it raises, or the columns it stamps. *)
Definition description_outcome (dss : list dataset) : result (frame → frame) :=
  if decide (homogeneous dss) then
    if decide (1 < len_set (sfreqs dss))%nat then
      Raise (ValueError "Recordings have different sampling rates.")
    else if decide (1 < len_set (channel_counts dss))%nat then
      Raise (ValueError "Recordings have different number of channels.")
    else if decide (1 < len_set (time_counts dss))%nat then
      Raise (ValueError "Recordings have different window lengths.")
    else
      match dss with
      | [] => Raise IndexError
      | ds :: _ =>
          Ok (stamp (info_sfreq (ds_backend ds))
                (length (ch_names (ds_backend ds)))
                (length (times (ds_backend ds))))
      end
  else Raise (AttributeError "windows").

(** The round trip of C8: build a concatenation, read its description,
    split it into singletons by index, concatenate the children of the
    parts in order, read the description of the result; the two tables are
    compared by value at the end. *)
Definition singleton_groups (n : nat) : list (list Z) :=
  (λ i, [Z.of_nat i]) <$> seq 0 n.

Definition dict_getitem {V} (m : gmap pyval V) (k : pyval) : result V :=
  match m !! k with
  | Some v => Ok v
  | None => Raise (KeyError k)
  end.

Definition split_roundtrip (children : list dataset)
    : M (result frame * result frame) :=
  c ← BaseConcatDataset.__init__ children;
  original ← attempt (BaseConcatDataset.description c);
  splits ← BaseConcatDataset.split c None
              (Some (singleton_groups (length children)));
  parts ← lift (mapM (λ i, dict_getitem splits (PyInt (Z.of_nat i)))
                  (seq 0 (length children)));
  c' ← BaseConcatDataset.__init__ (parts ≫= BaseConcatDataset.datasets);
  again ← attempt (BaseConcatDataset.description c');
  σ ← get_store;
  mret (frame_at σ <$> original, frame_at σ <$> again).

(** The positions of the rows that carry a value. *)
Definition non_null_positions (vals : list pyval) : list Z :=
  Z.of_nat <$> filter (λ i, isna (vals !!! i) = false) (seq 0 (length vals)).

(** An index group that [split] accepts on [n] children: not empty, and
    every index in the range of Python list indexing. *)
Definition valid_group (n : nat) (g : list Z) : Prop :=
  g ≠ [] ∧ Forall (λ i, - Z.of_nat n ≤ i < Z.of_nat n)%Z g.

Global Instance valid_group_dec n g : Decision (valid_group n g).
Proof. unfold valid_group. apply _. Defined.

(** The values that the getter of a dataset writes. *)
Definition ds_values (ds : dataset) : Qc * nat :=
  (info_sfreq (ds_backend ds), length (ch_names (ds_backend ds))).

(** ** Sample objects *)

Definition hz (z : Z) : Qc := Q2Qc (inject_Z z).

(** A recording given by its samples, one list of channel values per time
    point.  Outside the range of the samples [raw[:, i]] is an array without
    columns. *)
Definition sample_raw (sfreq : Z) (chs : list string) (data : list (list Qc))
    : Raw :=
  {| raw_sfreq := hz sfreq;
     raw_ch_names := chs;
     raw_times := hz <$> (Z.of_nat <$> seq 0 (length data));
     raw_len := length data;
     raw_getitem := λ i,
       match py_index data i with
       | Ok col => Ok ((λ x : Qc, [x]) <$> col, [hz (i `mod` Z.of_nat (length data))])
       | Raise _ => Ok ((λ _, []) <$> chs, [])
       end |}.

Definition sample_epochs (sfreq : Z) (chs : list string) (n_times : nat)
    (segments : list (array * row)) : Epochs :=
  {| ep_sfreq := hz sfreq;
     ep_ch_names := chs;
     ep_times := hz <$> (Z.of_nat <$> seq 0 n_times);
     ep_events := imap (λ i _, (Z.of_nat i, 0, 1)) segments;
     ep_get_data := λ i,
       match py_index segments i with
       | Ok seg => Ok [seg.1]
       | Raise e => Raise e
       end;
     ep_metadata := snd <$> segments |}.

Definition raw_a : Raw := sample_raw 100 ["C3"; "C4"] [[hz 1; hz 2]; [hz 3; hz 4]; [hz 5; hz 6]].
Definition raw_b : Raw := sample_raw 250 ["Cz"] [[hz 7]; [hz 8]].
Definition raw_c : Raw := sample_raw 100 ["C3"; "C4"] [[hz 9; hz 10]].

Definition md_row (y i start stop : Z) : row :=
  {[ "target" := PyInt y; "i_supercrop_in_trial" := PyInt i;
     "i_start_in_trial" := PyInt start; "i_stop_in_trial" := PyInt stop ]}.

Definition epochs_a : Epochs :=
  sample_epochs 100 ["C3"; "C4"] 2
    [ ([[hz 1; hz 2]; [hz 3; hz 4]], md_row 0 0 0 2);
      ([[hz 5; hz 6]; [hz 7; hz 8]], md_row 1 1 2 4) ].

Definition epochs_b : Epochs :=
  sample_epochs 100 ["C3"; "C4"] 3
    [ ([[hz 1; hz 2; hz 3]; [hz 4; hz 5; hz 6]], md_row 1 0 0 3) ].

(** A store with three description rows. *)
Definition store0 : store :=
  Store (<[0%nat := {["subject" := PyInt 1]}]>
         (<[1%nat := {["subject" := PyInt 2]}]>
          (<[2%nat := {["age" := PyInt 30]}]> ∅))) ∅.

Definition ds_a : BaseDataset.t := BaseDataset.mk raw_a 0%nat PyNone.
Definition win_a : WindowsDataset.t := WindowsDataset.mk epochs_a 1%nat.

Definition ds_b : BaseDataset.t := BaseDataset.mk raw_b 1%nat PyNone.
Definition ds_c : BaseDataset.t := BaseDataset.mk raw_c 2%nat PyNone.
Definition win_b : WindowsDataset.t := WindowsDataset.mk epochs_b 2%nat.

(** Two recordings with different sampling rates, and two windowed
    recordings that differ in the length of their windows only. *)
Definition concat_ab : BaseConcatDataset.t :=
  BaseConcatDataset.mk
    (ConcatDataset.mk [DBase ds_a; DBase ds_b]
       (ConcatDataset.cumsum [DBase ds_a; DBase ds_b])) 0%nat.
Definition concat_win : BaseConcatDataset.t :=
  BaseConcatDataset.mk
    (ConcatDataset.mk [DWindows win_a; DWindows win_b]
       (ConcatDataset.cumsum [DWindows win_a; DWindows win_b])) 0%nat.

Definition concat_abc : BaseConcatDataset.t :=
  BaseConcatDataset.mk
    (ConcatDataset.mk [DBase ds_a; DBase ds_b; DBase ds_c]
       (ConcatDataset.cumsum [DBase ds_a; DBase ds_b; DBase ds_c])) 0%nat.

Definition raw_d : Raw :=
  sample_raw 100 ["C3"; "C4"] [[hz 0; hz 1]; [hz 2; hz 3]; [hz 4; hz 5]].

(** [split] by ['subject'] on two recordings of which the second has no
    such field in its description. *)
Definition split_by_subject : M (gmap pyval BaseConcatDataset.t) :=
  d0 ← BaseDataset.__init__ raw_a (RSeries 0%nat) None;
  d1 ← BaseDataset.__init__ raw_d (RSeries 2%nat) None;
  c ← BaseConcatDataset.__init__ [DBase d0; DBase d1];
  BaseConcatDataset.split c (Some "subject") None.

(** Two recordings of two subjects, concatenated from [store0]. *)
Definition ds_d : BaseDataset.t := BaseDataset.mk raw_d 1%nat PyNone.
Definition concat_ad : BaseConcatDataset.t :=
  init_value [DBase ds_a; DBase ds_d] store0.
Definition store_ad : store := init_store [DBase ds_a; DBase ds_d] store0.

(** A windowed recording whose metadata has a target but no positions. *)
Definition epochs_c : Epochs :=
  sample_epochs 100 ["C3"] 1 [([[hz 1]], {["target" := PyInt 0]})].
Definition win_c : WindowsDataset.t := WindowsDataset.mk epochs_c 0%nat.

(** [split] called with both a property and index groups, on a concatenation
    of two recordings. *)
Definition split_with_both : M (gmap pyval BaseConcatDataset.t) :=
  d0 ← BaseDataset.__init__ raw_a (RSeries 0%nat) None;
  d1 ← BaseDataset.__init__ raw_c (RSeries 1%nat) None;
  c ← BaseConcatDataset.__init__ [DBase d0; DBase d1];
  BaseConcatDataset.split c (Some "subject") (Some [[0]; [1]]).

(** ** Running computations *)

Global Arguments BaseDataset.description : simpl never.
Global Arguments WindowsDataset.description : simpl never.
Global Arguments BaseConcatDataset.description : simpl never.
Global Arguments BaseConcatDataset.__init__ : simpl never.
Global Arguments ds_description : simpl never.
Global Arguments prefix_sum : simpl never.

Lemma M_bind_run {A B} (m : M A) (f : A → M B) σ :
  (m ≫= f) σ = match m σ with
               | (Ok a, σ') => f a σ'
               | (Raise e, σ') => (Raise e, σ')
               end.
Proof. reflexivity. Qed.

Lemma M_bind_Ok {A B} (m : M A) (f : A → M B) σ a σ' :
  m σ = (Ok a, σ') → (m ≫= f) σ = f a σ'.
Proof. intros H. by rewrite M_bind_run, H. Qed.

Lemma M_bind_Raise {A B} (m : M A) (f : A → M B) σ e σ' :
  m σ = (Raise e, σ') → (m ≫= f) σ = (Raise e, σ').
Proof. intros H. by rewrite M_bind_run, H. Qed.

Lemma store_eta σ : Store (series σ) (frames σ) = σ.
Proof. by destruct σ. Qed.

(** ** The description of a single recording *)

Lemma refresh_lookup_sfreq sf n r : refresh sf n r !! "sfreq" = Some (PyNum sf).
Proof. unfold refresh. by rewrite lookup_insert_ne, lookup_insert_eq. Qed.

Lemma refresh_lookup_n_channels sf n r :
  refresh sf n r !! "n_channels" = Some (PyInt (Z.of_nat n)).
Proof. unfold refresh. by rewrite lookup_insert_eq. Qed.

Lemma refresh_lookup_other sf n r k :
  k ≠ "sfreq" → k ≠ "n_channels" → refresh sf n r !! k = r !! k.
Proof. intros. unfold refresh. by rewrite !lookup_insert_ne. Qed.

Lemma refresh_dom sf n r : dom (refresh sf n r) = {["n_channels"; "sfreq"]} ∪ dom r.
Proof. unfold refresh. rewrite !dom_insert_L. by rewrite (assoc_L (∪)). Qed.

Lemma refresh_refresh sf n sf' n' r :
  refresh sf n (refresh sf' n' r) = refresh sf n r.
Proof.
  unfold refresh. apply map_eq. intros k.
  destruct (decide (k = "n_channels")) as [->|]; [by rewrite !lookup_insert_eq|].
  rewrite !(lookup_insert_ne _ "n_channels") by done.
  destruct (decide (k = "sfreq")) as [->|]; [by rewrite !lookup_insert_eq|].
  by rewrite !(lookup_insert_ne _ "sfreq"), !lookup_insert_ne by done.
Qed.

(** One read of a description, as a store transformer. *)
Lemma series_setitem_twice l k1 v1 k2 v2 σ :
  (series_setitem l k1 v1 ≫= λ _, series_setitem l k2 v2 ≫= λ _, mret l) σ
  = (Ok l, Store (alter (λ r, <[k2 := v2]> (<[k1 := v1]> r)) l (series σ))
             (frames σ)).
Proof.
  unfold mbind, M_bind, series_setitem, mret, M_ret. simpl.
  by rewrite alter_alter_eq.
Qed.

Lemma BaseDataset_description_run (d : BaseDataset.t) σ :
  BaseDataset.description d σ
  = (Ok (BaseDataset._description d),
     Store (alter (refresh (raw_sfreq (BaseDataset.raw d))
                     (length (raw_ch_names (BaseDataset.raw d))))
              (BaseDataset._description d) (series σ)) (frames σ)).
Proof. unfold BaseDataset.description. apply series_setitem_twice. Qed.

Lemma WindowsDataset_description_run (w : WindowsDataset.t) σ :
  WindowsDataset.description w σ
  = (Ok (WindowsDataset._description w),
     Store (alter (refresh (ep_sfreq (WindowsDataset.windows w))
                     (length (ep_ch_names (WindowsDataset.windows w))))
              (WindowsDataset._description w) (series σ)) (frames σ)).
Proof. unfold WindowsDataset.description. apply series_setitem_twice. Qed.

Lemma BaseDataset_description_at (d : BaseDataset.t) σ r :
  series σ !! BaseDataset._description d = Some r →
  BaseDataset.description d σ
  = (Ok (BaseDataset._description d),
     Store (<[BaseDataset._description d :=
               refresh (raw_sfreq (BaseDataset.raw d))
                 (length (raw_ch_names (BaseDataset.raw d))) r]> (series σ))
       (frames σ)).
Proof.
  intros Hr. rewrite BaseDataset_description_run.
  by rewrite (alter_alt_Some _ _ _ _ Hr).
Qed.


(** What a read that returns has done.  Both getters are the same store
    transformer, up to where the values come from. *)
Section one_read.
Context (l : loc) (sf : Qc) (n : nat) (g : M loc).
Hypothesis Hg : ∀ σ r, series σ !! l = Some r →
  g σ = (Ok l, Store (<[l := refresh sf n r]> (series σ)) (frames σ)).

Lemma read_returns σ r l1 σ1 :
  series σ !! l = Some r →
  g σ = (Ok l1, σ1) →
  l1 = l
  ∧ carries σ1 l sf n
  ∧ (∀ k, k ≠ "sfreq" → k ≠ "n_channels" → series_at σ1 l !! k = r !! k)
  ∧ (∀ l0, l0 ≠ l → series σ1 !! l0 = series σ !! l0)
  ∧ frames σ1 = frames σ
  ∧ is_Some (series σ1 !! l).
Proof.
  intros Hr Hrun. rewrite (Hg σ r Hr) in Hrun. injection Hrun as <- <-.
  unfold carries, series_at. cbn [series frames]. rewrite lookup_insert_eq.
  change (default ∅ (Some (refresh sf n r))) with (refresh sf n r).
  split; [done|]. split.
  { by rewrite refresh_lookup_sfreq, refresh_lookup_n_channels. }
  split; [by intros; apply refresh_lookup_other|]. split.
  { intros l0 Hl0. by rewrite lookup_insert_ne. }
  split; [done|by eexists].
Qed.
End one_read.

Lemma series_at_insert l r σs σf : series_at (Store (<[l := r]> σs) σf) l = r.
Proof. unfold series_at. simpl. by rewrite lookup_insert_eq. Qed.

Lemma float64_exact_PyInt (z : Z) : (Z.abs z < 2 ^ 53)%Z → float64_exact (PyInt z).
Proof.
  intros Hz. exists z, 0%Z. split; [done|]. split; [lia|].
  apply Q2Qc_eq_iff. change ((2 # 1) ^ 0)%Q with 1%Q. by rewrite Qmult_1_r.
Qed.



(** ** Construction of a [BaseDataset] *)

Lemma BaseDataset_init_run raw l name σ r :
  series σ !! l = Some r →
  let r' := refresh (raw_sfreq raw) (length (raw_ch_names raw)) r in
  BaseDataset.__init__ raw (RSeries l) (Some name) σ
  = (match r' !! name with
     | Some v => Ok (BaseDataset.mk raw l v)
     | None => Raise (ValueError ("'" +:+ name +:+ "' not in description."))
     end, Store (<[l := r']> (series σ)) (frames σ)).
Proof.
  intros Hr r'. unfold BaseDataset.__init__, BaseDataset.description_setter.
  rewrite (M_bind_Ok _ _ σ l σ) by done.
  set (self := BaseDataset.mk raw l PyNone).
  assert (Hread : ∀ σ1 r1, series σ1 !! l = Some r1 →
            (BaseDataset.description self ≫= series_read) σ1
            = (Ok (refresh (raw_sfreq raw) (length (raw_ch_names raw)) r1),
               Store (<[l := refresh (raw_sfreq raw) (length (raw_ch_names raw)) r1]>
                        (series σ1)) (frames σ1))).
  { intros σ1 r1 H1.
    rewrite (M_bind_Ok _ _ _ _ _ (BaseDataset_description_at self σ1 r1 H1)).
    unfold series_read. simpl. by rewrite series_at_insert. }
  rewrite (M_bind_Ok _ _ _ _ _ (Hread σ r Hr)). fold r'.
  destruct (r' !! name) as [v|] eqn:Hv.
  - rewrite decide_True by (apply elem_of_dom; eauto).
    rewrite (M_bind_Ok _ _ _ _ _ (Hread _ r' (lookup_insert_eq _ _ _))).
    simpl. unfold r' at 1 2. rewrite refresh_refresh, insert_insert_eq. fold r'.
    unfold mbind, M_bind, lift, row_getitem. by rewrite Hv.
  - rewrite decide_False; [done|].
    rewrite elem_of_dom, Hv. by intros [? ?].
Qed.

(** C3 (as amended).  [BaseDataset(raw, description, target_name)] on a
    Series [description]: the name is looked up in the row as the getter has
    just refreshed it, that is, in the given row with ['sfreq'] and
    ['n_channels'] set from the recording.  Provided the read of the
    description returns: a name that is neither a label of the given row nor
    one of these two makes the constructor raise
    [ValueError("'<name>' not in description.")], and no dataset is returned;
    a name that is a label of the refreshed row, with a value that a
    conversion to [float64] leaves as it is, gives a dataset whose target is
    that value.  Without a name the target is [None], and the description is
    not read.  No operation on the dataset changes the target afterwards:
    not the assignment of another recording or description, and
    [__getitem__] returns it as it was stored. *)
Theorem BaseDataset_init_target (raw : Raw) (l : loc) (σ : store) (r : row) :
  series σ !! l = Some r →
  let r' := refresh (raw_sfreq raw) (length (raw_ch_names raw)) r in
  let read := BaseDataset.description (BaseDataset.mk raw l PyNone) σ in
  (∀ name, is_ok read.1 = true →
     name ∉ dom r → name ≠ "sfreq" → name ≠ "n_channels" →
     (BaseDataset.__init__ raw (RSeries l) (Some name) σ).1
     = Raise (ValueError ("'" +:+ name +:+ "' not in description.")))
  ∧ (∀ name v, is_ok read.1 = true →
       r' !! name = Some v → float64_exact v →
       (BaseDataset.__init__ raw (RSeries l) (Some name) σ).1
       = Ok (BaseDataset.mk raw l v))
  ∧ BaseDataset.__init__ raw (RSeries l) None σ
    = (Ok (BaseDataset.mk raw l PyNone), σ)
  ∧ (∀ d : BaseDataset.t,
       (∀ raw', BaseDataset.target (BaseDataset.set_raw d raw')
                = BaseDataset.target d)
       ∧ (∀ desc σ1 d' σ2,
            BaseDataset.set_description d desc σ1 = (Ok d', σ2) →
            BaseDataset.target d' = BaseDataset.target d)
       ∧ (∀ i it, BaseDataset.__getitem__ d i = Ok it →
            ∃ x, it = RawItem x (BaseDataset.target d))).
Proof.
  intros Hr r' read. repeat split.
  - intros name _ Hn H1 H2.
    rewrite (BaseDataset_init_run raw l name σ r Hr). fold r'.
    assert (r' !! name = None) as ->; [|done].
    unfold r'. rewrite refresh_lookup_other by done.
    by apply not_elem_of_dom.
  - intros name v _ Hv _.
    rewrite (BaseDataset_init_run raw l name σ r Hr). fold r'. by rewrite Hv.
  - intros desc σ1 d' σ2. unfold BaseDataset.set_description.
    rewrite M_bind_run. destruct desc; simpl; intros [= <- _]; done.
  - intros i it. unfold BaseDataset.__getitem__.
    destruct (raw_getitem (BaseDataset.raw d) i) as [xt|e]; simpl; [|done].
    intros [= <-]. by eexists.
Qed.

Lemma BaseDataset_init_target_witness :
  series store0 !! 0%nat = Some {["subject" := PyInt 1]}
  ∧ is_ok (BaseDataset.description (BaseDataset.mk raw_a 0%nat PyNone) store0).1
    = true
  ∧ (BaseDataset.__init__ raw_a (RSeries 0%nat) (Some "age") store0).1
    = Raise (ValueError "'age' not in description.")
  ∧ (BaseDataset.__init__ raw_a (RSeries 0%nat) (Some "subject") store0).1
    = Ok (BaseDataset.mk raw_a 0%nat (PyInt 1)).
Proof.
  pose proof (BaseDataset_init_target raw_a 0%nat store0 _ eq_refl)
    as (Hmiss & Hhit & _).
  assert (Hread : is_ok (BaseDataset.description
                           (BaseDataset.mk raw_a 0%nat PyNone) store0).1 = true)
    by (vm_compute; reflexivity).
  split; [reflexivity|]. split; [exact Hread|]. split.
  - rewrite (Hmiss "age"); [done|exact Hread| |done|done].
    rewrite dom_singleton_L, elem_of_singleton. done.
  - rewrite (Hhit "subject" (PyInt 1)); [done|exact Hread|done|].
    apply float64_exact_PyInt. simpl. lia.
Defined.

(** C3, as stated, fails for the two labels that the getter writes:
    ['sfreq'] is not a label of the given row, yet the constructor returns a
    dataset, whose target is the sampling rate of the recording. *)
Lemma BaseDataset_init_target_counterexample :
("sfreq" ∉ dom ({["subject" := PyInt 1]} : row))
  ∧ series store0 !! 0%nat = Some {["subject" := PyInt 1]}
  ∧ (BaseDataset.__init__ raw_a (RSeries 0%nat) (Some "sfreq") store0).1
    = Ok (BaseDataset.mk raw_a 0%nat (PyNum (hz 100))).
Proof.
  split; [|split].
  - rewrite dom_singleton_L, elem_of_singleton. done.
  - reflexivity.
  - by rewrite (BaseDataset_init_run raw_a 0%nat "sfreq" store0 _ eq_refl).
Qed.

(** ** Indexing a [WindowsDataset] *)

Lemma row_getitems_Ok (r : row) (keys : list string) (vs : list pyval) :
  Forall2 (λ k v, r !! k = Some v) keys vs → row_getitems r keys = Ok vs.
Proof.
  intros H. unfold row_getitems.
  assert (Hboth : filter (λ k, r !! k = None) keys = []
                  ∧ mapM (row_getitem r) keys = Ok vs).
  { induction H as [|k v keys vs Hk _ [IH1 IH2]]; [done|]. split.
    - rewrite filter_cons_False; [done|]. by rewrite Hk.
    - assert (Hr : row_getitem r k = Ok v)
        by (unfold row_getitem; by rewrite Hk).
      cbn [mapM]. rewrite Hr. cbn [mbind result_bind]. by rewrite IH2. }
  destruct Hboth as [-> ->]. by rewrite decide_True.
Qed.

(** C9.  For an index [i] at which the windowed recording yields data
    ([get_data(item=i)] starts with [x]) and a metadata row that carries
    ['target'] and the three positional fields, [__getitem__] returns
    [(x, target, [i_supercrop_in_trial, i_start_in_trial, i_stop_in_trial])],
    in this order; [__len__] is the number of events. *)
Theorem WindowsDataset_getitem_len (w : WindowsDataset.t) (i : Z)
    (xs : list array) (x : array) (md : row) (y a b c : pyval) :
  ep_get_data (WindowsDataset.windows w) i = Ok xs →
  py_index xs 0 = Ok x →
  py_index (ep_metadata (WindowsDataset.windows w)) i = Ok md →
  md !! "target" = Some y →
  md !! "i_supercrop_in_trial" = Some a →
  md !! "i_start_in_trial" = Some b →
  md !! "i_stop_in_trial" = Some c →
  WindowsDataset.__getitem__ w i = Ok (WindowItem x y [a; b; c])
  ∧ WindowsDataset.__len__ w = length (ep_events (WindowsDataset.windows w)).
Proof.
  intros Hxs Hx Hmd Hy Ha Hb Hc. split; [|done].
  unfold WindowsDataset.__getitem__.
  rewrite Hxs. simpl. rewrite Hx. simpl. rewrite Hmd. simpl.
  unfold row_getitem. rewrite Hy.
  rewrite (row_getitems_Ok md WindowsDataset.md_keys [a; b; c]); [done|].
  unfold WindowsDataset.md_keys. by repeat constructor.
Qed.

Lemma WindowsDataset_getitem_len_witness :
  WindowsDataset.__getitem__ win_a 1
  = Ok (WindowItem [[hz 5; hz 6]; [hz 7; hz 8]] (PyInt 1)
          [PyInt 1; PyInt 2; PyInt 4])
  ∧ WindowsDataset.__len__ win_a = 2%nat.
Proof.
  apply (WindowsDataset_getitem_len win_a 1
           [[[hz 5; hz 6]; [hz 7; hz 8]]] _ (md_row 1 1 2 4));
    reflexivity.
Defined.

(** ** The arguments of [split] *)

(** C4 (as amended).  Without a property and without index groups [split]
    raises [ValueError]; the store is untouched.  With both, nothing is
    raised on that account: the index groups are used and the property is
    ignored, so that the call behaves as the one with the index groups
    alone. *)
Theorem split_arguments (c : BaseConcatDataset.t) (σ : store) :
  BaseConcatDataset.split c None None σ
  = (Raise (ValueError "Splitting requires defining ids or a property."), σ)
  ∧ ∀ prop ids,
      BaseConcatDataset.split c (Some prop) (Some ids) σ
      = BaseConcatDataset.split c None (Some ids) σ.
Proof. split; [reflexivity|]. intros prop ids. reflexivity. Qed.

(** C4, as stated, fails when both arguments are given: the call returns a
    mapping with the two groups. *)
Lemma split_arguments_counterexample :
  is_ok (split_with_both store0).1 = true
  ∧ dom <$> (split_with_both store0).1 = Ok ({[PyInt 0; PyInt 1]} : gset pyval).
Proof. split; vm_compute; reflexivity. Qed.

(** ** The aggregate description *)

Lemma mapM_result_Ok {A B} (f : A → result B) (g : A → B) (l : list A) :
  Forall (λ x, f x = Ok (g x)) l → mapM f l = Ok (g <$> l).
Proof.
  induction 1 as [|x l Hx _ IH]; [done|].
  simpl. rewrite Hx. simpl. by rewrite IH.
Qed.

Lemma mapM_result_Raise {A B} (f : A → result B) (e : exn) (l : list A) :
  Forall (λ x, is_ok (f x) = true ∨ f x = Raise e) l →
  Exists (λ x, f x = Raise e) l →
  mapM f l = Raise e.
Proof.
  induction 1 as [|x l Hx _ IH]; [by inversion 1|].
  intros Hex. simpl. destruct Hx as [Hx| ->]; [|done].
  destruct (f x) as [y|e'] eqn:Hy; [|done]. simpl.
  rewrite IH; [done|]. inversion Hex; subst; [congruence|done].
Qed.

Lemma list_to_set_hasattr_raw (dss : list dataset) :
  (list_to_set (hasattr_raw <$> dss) : gset bool) = {[true]}
  ↔ dss ≠ [] ∧ Forall (λ ds, hasattr_raw ds = true) dss.
Proof.
  split.
  - intros Heq. split.
    + intros ->. simpl in Heq.
      assert (true ∈ (∅ : gset bool)) as H by (rewrite Heq; by apply elem_of_singleton).
      by apply not_elem_of_empty in H.
    + apply Forall_forall. intros ds Hds.
      assert (hasattr_raw ds ∈ ({[true]} : gset bool)) as H.
      { rewrite <-Heq. apply elem_of_list_to_set, list_elem_of_fmap. eauto. }
      by apply elem_of_singleton in H.
  - intros [Hne Hall]. apply set_eq. intros b.
    rewrite elem_of_list_to_set, list_elem_of_fmap, elem_of_singleton. split.
    + intros (ds & -> & Hds). by eapply Forall_forall in Hall.
    + intros ->. destruct dss as [|ds dss]; [done|].
      exists ds. split; [|by left]. symmetry. by inversion Hall.
Qed.

Lemma ds_type_of_raw dss :
  dss ≠ [] → Forall (λ ds, hasattr_raw ds = true) dss →
  BaseConcatDataset.ds_type_of dss = "raw".
Proof.
  intros. unfold BaseConcatDataset.ds_type_of.
  by rewrite decide_True by (by apply list_to_set_hasattr_raw).
Qed.

Lemma ds_type_of_windows dss :
  dss = [] ∨ ¬ Forall (λ ds, hasattr_raw ds = true) dss →
  BaseConcatDataset.ds_type_of dss = "windows".
Proof.
  intros H. unfold BaseConcatDataset.ds_type_of.
  rewrite decide_False; [done|].
  rewrite list_to_set_hasattr_raw. intros [? ?]. by destruct H.
Qed.

(** On children of one kind, [getattr(ds, ds_type)] finds every recording. *)
Lemma ds_getattr_homogeneous dss :
  homogeneous dss →
  Forall (λ ds, ds_getattr ds (BaseConcatDataset.ds_type_of dss)
                = Ok (ds_backend ds)) dss.
Proof.
  intros [Hraw|Hwin].
  - destruct dss as [|d0 dss]; [constructor|].
    rewrite ds_type_of_raw by done.
    eapply Forall_impl; [exact Hraw|]. by intros [d|w].
  - rewrite ds_type_of_windows.
    + eapply Forall_impl; [exact Hwin|]. by intros [d|w].
    + destruct dss as [|d0 dss]; [by left|right].
      intros Hall. inversion Hwin; inversion Hall; congruence.
Qed.

(** On children of both kinds, the first [BaseDataset] has no attribute
    ['windows']. *)
Lemma ds_getattr_mixed {B} (g : backend → B) dss :
  ¬ homogeneous dss →
  mapM (λ ds, b ← ds_getattr ds (BaseConcatDataset.ds_type_of dss); mret (g b)) dss
  = Raise (AttributeError "windows").
Proof.
  intros Hmix.
  assert (Hnraw : ¬ Forall (λ ds, hasattr_raw ds = true) dss)
    by (intros ?; apply Hmix; by left).
  assert (Hnwin : ¬ Forall (λ ds, hasattr_raw ds = false) dss)
    by (intros ?; apply Hmix; by right).
  rewrite ds_type_of_windows by (by right).
  apply mapM_result_Raise.
  - apply Forall_forall. intros [d|w] _; [by right|by left].
  - apply not_Forall_Exists in Hnwin; [|apply _].
    eapply Exists_impl; [exact Hnwin|]. intros [d|w]; [done|]. simpl. done.
Qed.

Lemma lift_run {A} (r : result A) σ : lift r σ = (r, σ).
Proof. done. Qed.

Lemma M_bind_lift {A B} (r : result A) (f : A → M B) σ :
  (lift r ≫= f) σ = match r with
                    | Ok a => f a σ
                    | Raise e => (Raise e, σ)
                    end.
Proof. rewrite M_bind_run, lift_run. by destruct r. Qed.

(** A read of the aggregate description on children of one kind. *)
Lemma BaseConcatDataset_description_run (c : BaseConcatDataset.t) σ :
  let dss := BaseConcatDataset.datasets c in
  let l := BaseConcatDataset._description c in
  homogeneous dss →
  BaseConcatDataset.description c σ
  = if decide (1 < len_set (sfreqs dss))%nat then
      (Raise (ValueError "Recordings have different sampling rates."), σ)
    else if decide (1 < len_set (channel_counts dss))%nat then
      (Raise (ValueError "Recordings have different number of channels."), σ)
    else if decide (1 < len_set (time_counts dss))%nat then
      (Raise (ValueError "Recordings have different window lengths."), σ)
    else
      match dss with
      | [] => (Raise IndexError, σ)
      | ds :: _ =>
          (Ok l, Store (series σ)
                   (alter (stamp (info_sfreq (ds_backend ds))
                             (length (ch_names (ds_backend ds)))
                             (length (times (ds_backend ds)))) l (frames σ)))
      end.
Proof.
  intros dss l Hhom. unfold BaseConcatDataset.description. fold dss.
  pose proof (ds_getattr_homogeneous dss Hhom) as Hget.
  assert (Hmap : ∀ B (g : backend → B),
            mapM (λ ds, b ← ds_getattr ds (BaseConcatDataset.ds_type_of dss);
                        mret (g b)) dss
            = Ok ((λ ds, g (ds_backend ds)) <$> dss)).
  { intros B g. apply mapM_result_Ok.
    eapply Forall_impl; [exact Hget|]. by intros ds ->. }
  rewrite (Hmap _ info_sfreq), (Hmap _ (λ b, length (ch_names b))),
    (Hmap _ (λ b, length (times b))).
  rewrite !M_bind_lift. fold (sfreqs dss) (channel_counts dss) (time_counts dss).
  repeat case_decide; try done.
  destruct dss as [|ds dss']; [done|].
  rewrite !M_bind_lift. simpl.
  unfold mbind, M_bind, frame_setitem, mret, M_ret. simpl.
  by rewrite !alter_alter_eq.
Qed.

(** A read on children of both kinds. *)
Lemma BaseConcatDataset_description_mixed (c : BaseConcatDataset.t) σ :
  ¬ homogeneous (BaseConcatDataset.datasets c) →
  BaseConcatDataset.description c σ = (Raise (AttributeError "windows"), σ).
Proof.
  intros Hmix. unfold BaseConcatDataset.description.
  rewrite (ds_getattr_mixed info_sfreq _ Hmix). by rewrite M_bind_lift.
Qed.

(** A read that raises has written nothing. *)
Lemma BaseConcatDataset_description_Raise (c : BaseConcatDataset.t) σ e σ' :
  BaseConcatDataset.description c σ = (Raise e, σ') → σ' = σ.
Proof.
  destruct (decide (homogeneous (BaseConcatDataset.datasets c))) as [Hh|Hm].
  - rewrite (BaseConcatDataset_description_run c σ Hh).
    repeat case_decide; try (by intros [= _ <-]).
    destruct (BaseConcatDataset.datasets c); by intros [= _ <-].
  - rewrite (BaseConcatDataset_description_mixed c σ Hm). by intros [= _ <-].
Qed.

(** C5.  On children of one kind, a read of the aggregate description
    raises [ValueError] as soon as one of the three collected properties has
    more than one distinct value; the message names the property, the first
    one in the order sampling rate, number of channels, window length that
    disagrees.  Whatever the children, a read that raises leaves the store,
    and with it the stored aggregate table, as it was: nothing is written
    before the checks have passed. *)
Theorem description_mismatch_raises (c : BaseConcatDataset.t) (σ : store) :
  let dss := BaseConcatDataset.datasets c in
  (homogeneous dss →
     ((1 < len_set (sfreqs dss))%nat →
        BaseConcatDataset.description c σ
        = (Raise (ValueError "Recordings have different sampling rates."), σ))
     ∧ ((len_set (sfreqs dss) ≤ 1)%nat →
        (1 < len_set (channel_counts dss))%nat →
        BaseConcatDataset.description c σ
        = (Raise (ValueError "Recordings have different number of channels."),
           σ))
     ∧ ((len_set (sfreqs dss) ≤ 1)%nat →
        (len_set (channel_counts dss) ≤ 1)%nat →
        (1 < len_set (time_counts dss))%nat →
        BaseConcatDataset.description c σ
        = (Raise (ValueError "Recordings have different window lengths."), σ)))
  ∧ (∀ e σ', BaseConcatDataset.description c σ = (Raise e, σ') → σ' = σ).
Proof.
  intros dss. split.
  - intros Hhom. rewrite (BaseConcatDataset_description_run c σ Hhom).
    fold dss. repeat split; intros; repeat case_decide; done || lia.
  - apply BaseConcatDataset_description_Raise.
Qed.

Lemma description_mismatch_raises_witness :
  homogeneous (BaseConcatDataset.datasets concat_ab)
  ∧ (1 < len_set (sfreqs (BaseConcatDataset.datasets concat_ab)))%nat
  ∧ BaseConcatDataset.description concat_ab store0
    = (Raise (ValueError "Recordings have different sampling rates."), store0).
Proof.
  assert (Hhom : homogeneous (BaseConcatDataset.datasets concat_ab))
    by (left; repeat constructor).
  assert (Hlt : (1 < len_set (sfreqs (BaseConcatDataset.datasets concat_ab)))%nat)
    by (vm_compute; lia).
  split; [exact Hhom|]. split; [exact Hlt|].
  exact (proj1 (proj1 (description_mismatch_raises concat_ab store0) Hhom) Hlt).
Defined.

(** C10.  The window-length check runs on the recordings of the children
    whatever their kind: on [WindowsDataset] children whose windows agree in
    sampling rate and number of channels but not in the length of [times],
    the read raises [ValueError] with the window-length message, and so it
    does on [BaseDataset] children whose recordings differ in the length of
    [times]. *)
Theorem window_length_check_any_kind (c : BaseConcatDataset.t) (σ : store) :
  (∀ ws : list WindowsDataset.t,
     BaseConcatDataset.datasets c = DWindows <$> ws →
     (len_set ((λ w, ep_sfreq (WindowsDataset.windows w)) <$> ws) ≤ 1)%nat →
     (len_set ((λ w, length (ep_ch_names (WindowsDataset.windows w))) <$> ws)
      ≤ 1)%nat →
     (1 < len_set ((λ w, length (ep_times (WindowsDataset.windows w))) <$> ws))%nat →
     BaseConcatDataset.description c σ
     = (Raise (ValueError "Recordings have different window lengths."), σ))
  ∧ (∀ ds : list BaseDataset.t,
       BaseConcatDataset.datasets c = DBase <$> ds →
       (len_set ((λ d, raw_sfreq (BaseDataset.raw d)) <$> ds) ≤ 1)%nat →
       (len_set ((λ d, length (raw_ch_names (BaseDataset.raw d))) <$> ds)
        ≤ 1)%nat →
       (1 < len_set ((λ d, length (raw_times (BaseDataset.raw d))) <$> ds))%nat →
       BaseConcatDataset.description c σ
       = (Raise (ValueError "Recordings have different window lengths."), σ)).
Proof.
  split.
  - intros ws Hws Hf Hc Ht.
    rewrite BaseConcatDataset_description_run; rewrite Hws.
    + unfold sfreqs, channel_counts, time_counts.
      rewrite <-!list_fmap_compose. unfold compose. simpl.
      repeat case_decide; done || lia.
    + right. apply Forall_fmap, Forall_forall. done.
  - intros ds Hds Hf Hc Ht.
    rewrite BaseConcatDataset_description_run; rewrite Hds.
    + unfold sfreqs, channel_counts, time_counts.
      rewrite <-!list_fmap_compose. unfold compose. simpl.
      repeat case_decide; done || lia.
    + left. apply Forall_fmap, Forall_forall. done.
Qed.

Lemma window_length_check_any_kind_witness :
  BaseConcatDataset.description concat_win store0
  = (Raise (ValueError "Recordings have different window lengths."), store0).
Proof.
  apply (proj1 (window_length_check_any_kind concat_win store0) [win_a; win_b]).
  - reflexivity.
  - vm_compute. lia.
  - vm_compute. lia.
  - vm_compute. lia.
Defined.

(** ** [bisect_right] on a non-decreasing list *)

Lemma insertion_point_unique (a : list Z) (x : Z) (k k' : nat) :
  insertion_point a x k → insertion_point a x k' → k = k'.
Proof.
  intros (Hk & Hlo & Hhi) (Hk' & Hlo' & Hhi').
  destruct (Nat.lt_trichotomy k k') as [Hlt|[->|Hlt]]; [|done|].
  - destruct (lookup_lt_is_Some_2 a k) as [v Hv]; [lia|].
    pose proof (Hlo' k v Hlt Hv). pose proof (Hhi k v (Nat.le_refl _) Hv). lia.
  - destruct (lookup_lt_is_Some_2 a k') as [v Hv]; [lia|].
    pose proof (Hlo k' v Hlt Hv). pose proof (Hhi' k' v (Nat.le_refl _) Hv). lia.
Qed.

Lemma bisect_loop_S (fuel : nat) (a : list Z) (x : Z) (lo hi : nat) :
  bisect_loop (S fuel) a x lo hi
  = if decide (lo < hi)%nat then
      if decide (x < a !!! ((lo + hi) `div` 2)%nat)
      then bisect_loop fuel a x lo ((lo + hi) `div` 2)%nat
      else bisect_loop fuel a x ((lo + hi) `div` 2 + 1)%nat hi
    else lo.
Proof. reflexivity. Qed.

Lemma bisect_loop_spec (a : list Z) (x : Z) : nondecreasing a →
  ∀ fuel lo hi : nat,
    (lo ≤ hi ≤ length a)%nat → (hi - lo ≤ fuel)%nat →
    (∀ (i : nat) (v : Z), (i < lo)%nat → a !! i = Some v → (v ≤ x)%Z) →
    (∀ (i : nat) (v : Z), (hi ≤ i)%nat → a !! i = Some v → (x < v)%Z) →
    insertion_point a x (bisect_loop fuel a x lo hi).
Proof.
  intros Hmono fuel. induction fuel as [|fuel IH]; intros lo hi Hb Hf Hlo Hhi.
  - simpl. assert (lo = hi) as -> by lia.
    split; [lia|]. split; [exact Hlo|exact Hhi].
  - rewrite bisect_loop_S. case_decide as Hlt.
    + set (mid := ((lo + hi) `div` 2)%nat).
      assert (Hmid : (lo ≤ mid < hi)%nat).
      { subst mid. split.
        - apply Nat.div_le_lower_bound; lia.
        - apply Nat.Div0.div_lt_upper_bound; lia. }
      destruct (lookup_lt_is_Some_2 a mid) as [vm Hvm]; [lia|].
      rewrite (list_lookup_total_correct a mid vm Hvm).
      case_decide as Hx.
      * apply IH; [lia|lia|exact Hlo|].
        intros i v Hi Hv. pose proof (Hmono mid i vm v Hi Hvm Hv). lia.
      * apply IH; [lia|lia| |exact Hhi].
        intros i v Hi Hv.
        assert (i ≤ mid)%nat as Hi' by lia.
        pose proof (Hmono i mid v vm Hi' Hv Hvm). lia.
    + assert (lo = hi) as -> by lia.
      split; [lia|]. split; [exact Hlo|exact Hhi].
Qed.

(** [length a] iterations are enough: the loop has then reached the
    insertion point. *)
Lemma bisect_right_spec (a : list Z) (x : Z) :
  nondecreasing a → insertion_point a x (bisect_right a x).
Proof.
  intros Hmono. unfold bisect_right. apply bisect_loop_spec; [done|lia|lia| |].
  - intros i v Hi. lia.
  - intros i v Hi Hv. apply lookup_lt_Some in Hv. lia.
Qed.

(** ** Cumulative sizes and prefix sums *)

Lemma prefix_sum_0 lens : prefix_sum lens 0 = 0%nat.
Proof. unfold prefix_sum. by rewrite take_0. Qed.

Lemma prefix_sum_cons n lens k :
  prefix_sum (n :: lens) (S k) = (n + prefix_sum lens k)%nat.
Proof. done. Qed.

Lemma prefix_sum_all lens k :
  (length lens ≤ k)%nat → prefix_sum lens k = sum_list lens.
Proof. intros. unfold prefix_sum. by rewrite take_ge. Qed.

Lemma prefix_sum_mono lens i j :
  (i ≤ j)%nat → (prefix_sum lens i ≤ prefix_sum lens j)%nat.
Proof.
  revert i j. induction lens as [|n lens IH]; intros i j Hij.
  - unfold prefix_sum. by rewrite !take_nil.
  - destruct i as [|i]; [rewrite prefix_sum_0; lia|].
    destruct j as [|j]; [lia|].
    rewrite !prefix_sum_cons. pose proof (IH i j). lia.
Qed.

Lemma cumsum_from_length s dss :
  length (ConcatDataset.cumsum_from s dss) = length dss.
Proof. revert s. induction dss as [|ds dss IH]; intros s; simpl; [done|by rewrite IH]. Qed.

Lemma cumsum_length dss : length (ConcatDataset.cumsum dss) = length dss.
Proof. apply cumsum_from_length. Qed.

Lemma cumsum_from_lookup dss : ∀ (s : Z) (i : nat),
  (i < length dss)%nat →
  ConcatDataset.cumsum_from s dss !! i
  = Some (s + Z.of_nat (prefix_sum (ds_len <$> dss) (S i)))%Z.
Proof.
  induction dss as [|ds dss IH]; intros s i Hi; simpl in Hi; [lia|].
  destruct i as [|i].
  - rewrite fmap_cons, prefix_sum_cons, prefix_sum_0.
    simpl. apply (f_equal Some). lia.
  - rewrite fmap_cons, (prefix_sum_cons _ _ (S i)).
    change (ConcatDataset.cumsum_from s (ds :: dss) !! S i)
      with (ConcatDataset.cumsum_from (s + Z.of_nat (ds_len ds)) dss !! i).
    rewrite IH by lia. apply (f_equal Some). lia.
Qed.

Lemma cumsum_lookup dss (i : nat) :
  (i < length dss)%nat →
  ConcatDataset.cumsum dss !! i
  = Some (Z.of_nat (prefix_sum (ds_len <$> dss) (S i))).
Proof.
  intros Hi. unfold ConcatDataset.cumsum. rewrite cumsum_from_lookup by done.
  apply (f_equal Some). lia.
Qed.

Lemma cumsum_nondecreasing dss : nondecreasing (ConcatDataset.cumsum dss).
Proof.
  intros i j vi vj Hij Hi Hj.
  pose proof (lookup_lt_Some _ _ _ Hi) as Hi'.
  pose proof (lookup_lt_Some _ _ _ Hj) as Hj'.
  unfold ConcatDataset.cumsum in Hi', Hj'. rewrite cumsum_from_length in Hi', Hj'.
  rewrite cumsum_lookup in Hi, Hj by done.
  injection Hi as <-. injection Hj as <-.
  pose proof (prefix_sum_mono (ds_len <$> dss) (S i) (S j)). lia.
Qed.

Lemma resolve_spec lens : ∀ i k j,
  resolve lens i = Some (k, j) →
  (k < length lens)%nat
  ∧ (prefix_sum lens k ≤ i < prefix_sum lens (S k))%nat
  ∧ j = (i - prefix_sum lens k)%nat.
Proof.
  induction lens as [|n lens IH]; intros i k j; simpl; [done|].
  case_decide as Hi.
  - intros [= <- <-]. rewrite prefix_sum_0, prefix_sum_cons, prefix_sum_0.
    simpl. lia.
  - destruct (resolve lens (i - n)) as [[k' j']|] eqn:Hres; [|done].
    simpl. intros [= <- <-].
    destruct (IH _ _ _ Hres) as (Hk & Hr & ->).
    rewrite !prefix_sum_cons. simpl. lia.
Qed.

Lemma resolve_total lens : ∀ i,
  (i < sum_list lens)%nat → is_Some (resolve lens i).
Proof.
  induction lens as [|n lens IH]; intros i Hi; simpl in *; [lia|].
  case_decide; [by eexists|].
  destruct (IH (i - n)%nat) as [[k j] ->]; [lia|]. by eexists.
Qed.

(** The insertion point of a valid global index in the cumulative sizes is
    the child that prefix-sum resolution finds. *)
Lemma cumsum_insertion_point dss (i k : nat) :
  (k < length dss)%nat →
  (prefix_sum (ds_len <$> dss) k ≤ i < prefix_sum (ds_len <$> dss) (S k))%nat →
  insertion_point (ConcatDataset.cumsum dss) (Z.of_nat i) k.
Proof.
  intros Hk Hi. split; [|split].
  - unfold ConcatDataset.cumsum. rewrite cumsum_from_length. lia.
  - intros i' v Hi' Hv. rewrite cumsum_lookup in Hv by lia. injection Hv as <-.
    pose proof (prefix_sum_mono (ds_len <$> dss) (S i') k). lia.
  - intros i' v Hi' Hv.
    pose proof (lookup_lt_Some _ _ _ Hv) as Hlt.
    unfold ConcatDataset.cumsum in Hlt. rewrite cumsum_from_length in Hlt.
    rewrite cumsum_lookup in Hv by lia. injection Hv as <-.
    pose proof (prefix_sum_mono (ds_len <$> dss) (S k) (S i')). lia.
Qed.

(** The insertion point of the total length is past the last child. *)
Lemma cumsum_insertion_point_total dss :
  insertion_point (ConcatDataset.cumsum dss)
    (Z.of_nat (sum_list (ds_len <$> dss))) (length dss).
Proof.
  split; [|split].
  - unfold ConcatDataset.cumsum. by rewrite cumsum_from_length.
  - intros i v Hi Hv. rewrite cumsum_lookup in Hv by lia. injection Hv as <-.
    rewrite <-(prefix_sum_all (ds_len <$> dss) (length dss))
      by (by rewrite length_fmap).
    pose proof (prefix_sum_mono (ds_len <$> dss) (S i) (length dss)). lia.
  - intros i v Hi Hv. apply lookup_lt_Some in Hv.
    unfold ConcatDataset.cumsum in Hv. rewrite cumsum_from_length in Hv. lia.
Qed.

Lemma py_index_nat {A} (l : list A) (i : nat) :
  py_index l (Z.of_nat i) = match l !! i with
                            | Some a => Ok a
                            | None => Raise IndexError
                            end.
Proof.
  unfold py_index. destruct (decide (Z.of_nat i < 0)); [lia|].
  rewrite decide_True by lia. by rewrite Nat2Z.id.
Qed.

(** ** Construction of a [BaseConcatDataset] *)

Lemma ds_description_run ds σ :
  ds_description ds σ
  = (Ok (ds_loc ds), Store (ds_refresh_series (series σ) ds) (frames σ)).
Proof.
  destruct ds as [d|w]; unfold ds_description.
  - apply BaseDataset_description_run.
  - apply WindowsDataset_description_run.
Qed.

Lemma mapM_ds_description dss : ∀ σ,
  mapM ds_description dss σ = (Ok (ds_loc <$> dss), refresh_all dss σ).
Proof.
  induction dss as [|ds dss IH]; intros σ.
  { unfold refresh_all. simpl. by rewrite store_eta. }
  change (mapM ds_description (ds :: dss))
    with (ds_description ds ≫= λ y,
          mapM ds_description dss ≫= λ k, mret (y :: k)).
  rewrite (M_bind_Ok _ _ _ _ _ (ds_description_run ds σ)).
  by rewrite (M_bind_Ok _ _ _ _ _ (IH _)).
Qed.

Lemma refresh_all_frames dss σ : frames (refresh_all dss σ) = frames σ.
Proof. done. Qed.

Lemma BaseConcatDataset_init_run dss σ :
  dss ≠ [] →
  BaseConcatDataset.__init__ dss σ = (Ok (init_value dss σ), init_store dss σ).
Proof.
  intros Hne. unfold BaseConcatDataset.__init__, ConcatDataset.__init__.
  rewrite decide_True by (destruct dss; [done|simpl; lia]).
  rewrite M_bind_lift.
  rewrite (M_bind_Ok _ _ _ _ _ (mapM_ds_description dss σ)).
  unfold init_value, init_store, rows_of.
  rewrite <-(refresh_all_frames dss σ). done.
Qed.

Lemma BaseConcatDataset_init_empty σ :
  BaseConcatDataset.__init__ [] σ
  = (Raise (AssertionError "datasets should not be an empty iterable"), σ).
Proof. done. Qed.

(** ** Length and indexing of a concatenation *)

Lemma ConcatDataset_len dss :
  dss ≠ [] →
  ConcatDataset.__len__ (ConcatDataset.mk dss (ConcatDataset.cumsum dss))
  = Ok (Z.of_nat (sum_list (ds_len <$> dss))).
Proof.
  intros Hne. unfold ConcatDataset.__len__, py_index. simpl.
  rewrite !cumsum_length.
  assert (0 < length dss)%nat by (destruct dss; [done|simpl; lia]).
  rewrite decide_True by lia.
  replace (Z.to_nat (Z.of_nat (length dss) + -1)) with (length dss - 1)%nat by lia.
  rewrite cumsum_lookup by lia.
  rewrite prefix_sum_all by (rewrite length_fmap; lia). done.
Qed.

Lemma ConcatDataset_getitem_resolved dss (i k j : nat) :
  resolve (ds_len <$> dss) i = Some (k, j) →
  ∃ ds, dss !! k = Some ds
        ∧ ConcatDataset.__getitem__
            (ConcatDataset.mk dss (ConcatDataset.cumsum dss)) (Z.of_nat i)
          = ds_getitem ds (Z.of_nat j).
Proof.
  intros Hres. apply resolve_spec in Hres as (Hk & Hi & ->).
  rewrite length_fmap in Hk.
  destruct (lookup_lt_is_Some_2 dss k Hk) as [ds Hds]. exists ds. split; [done|].
  unfold ConcatDataset.__getitem__. simpl.
  rewrite decide_False by lia. simpl.
  rewrite (insertion_point_unique _ _ _ _
             (bisect_right_spec _ (Z.of_nat i) (cumsum_nondecreasing dss))
             (cumsum_insertion_point dss i k Hk Hi)).
  rewrite py_index_nat, Hds.
  destruct (decide (k = 0%nat)) as [->|Hk0].
  - simpl. rewrite prefix_sum_0. by rewrite Nat.sub_0_r.
  - replace (Z.of_nat k - 1) with (Z.of_nat (k - 1)) by lia.
    rewrite py_index_nat, cumsum_lookup by lia.
    replace (S (k - 1)) with k by lia. simpl.
    f_equal. lia.
Qed.

Lemma ConcatDataset_getitem_len dss :
  dss ≠ [] →
  ConcatDataset.__getitem__ (ConcatDataset.mk dss (ConcatDataset.cumsum dss))
    (Z.of_nat (sum_list (ds_len <$> dss)))
  = Raise IndexError.
Proof.
  intros Hne. unfold ConcatDataset.__getitem__. simpl.
  rewrite decide_False by lia. simpl.
  rewrite (insertion_point_unique _ _ _ _
             (bisect_right_spec _ _ (cumsum_nondecreasing dss))
             (cumsum_insertion_point_total dss)).
  assert (0 < length dss)%nat by (destruct dss; [done|simpl; lia]).
  rewrite decide_False by lia.
  replace (Z.of_nat (length dss) - 1) with (Z.of_nat (length dss - 1)) by lia.
  rewrite !py_index_nat, cumsum_lookup by lia. simpl.
  by rewrite lookup_ge_None_2.
Qed.

(** C1.  A [BaseConcatDataset] built from a non-empty list of children:
    its length is the sum of the children's lengths; for every global index
    [i] below the length, [__getitem__] returns what the child [k] returns at
    the offset [j], where [(k, j)] is the prefix-sum resolution of [i] over the
    children's lengths ([k] is the child whose range
    [prefix_sum k ≤ i < prefix_sum (k+1)] contains [i], and
    [j = i - prefix_sum k]); at the length itself [__getitem__] raises
    [IndexError]. *)
Theorem concat_len_getitem (children : list dataset) (σ : store) :
  children ≠ [] →
  ∃ c σ',
    BaseConcatDataset.__init__ children σ = (Ok c, σ')
    ∧ BaseConcatDataset.datasets c = children
    ∧ let lens := ds_len <$> children in
      BaseConcatDataset.__len__ c = Ok (Z.of_nat (sum_list lens))
      ∧ (∀ i : nat, (i < sum_list lens)%nat →
           ∃ k j ds,
             resolve lens i = Some (k, j)
             ∧ (prefix_sum lens k ≤ i < prefix_sum lens (S k))%nat
             ∧ j = (i - prefix_sum lens k)%nat
             ∧ children !! k = Some ds
             ∧ BaseConcatDataset.__getitem__ c (Z.of_nat i)
               = ds_getitem ds (Z.of_nat j))
      ∧ BaseConcatDataset.__getitem__ c (Z.of_nat (sum_list lens))
        = Raise IndexError.
Proof.
  intros Hne. exists (init_value children σ), (init_store children σ).
  split; [by apply BaseConcatDataset_init_run|]. split; [done|].
  intros lens. split; [by apply ConcatDataset_len|]. split.
  - intros i Hi. destruct (resolve_total lens i Hi) as [[k j] Hres].
    destruct (ConcatDataset_getitem_resolved children i k j Hres)
      as (ds & Hds & Hget).
    destruct (resolve_spec _ _ _ _ Hres) as (_ & Hrange & Hj).
    exists k, j, ds. done.
  - by apply ConcatDataset_getitem_len.
Qed.

Lemma concat_len_getitem_witness :
  [DBase ds_a; DBase ds_b] ≠ []
  ∧ ∃ c σ',
      BaseConcatDataset.__init__ [DBase ds_a; DBase ds_b] store0 = (Ok c, σ')
      ∧ BaseConcatDataset.__len__ c = Ok 5
      ∧ BaseConcatDataset.__getitem__ c 5 = Raise IndexError.
Proof.
  assert (Hne : [DBase ds_a; DBase ds_b] ≠ []) by discriminate.
  split; [exact Hne|].
  destruct (concat_len_getitem [DBase ds_a; DBase ds_b] store0 Hne)
    as (c & σ' & Hinit & _ & Hlen & _ & Hend).
  exists c, σ'. split; [exact Hinit|]. split; [exact Hlen|exact Hend].
Defined.

(** ** The comprehension of [split] *)

Lemma mapM_result_Forall2 {A B} (f : A → result B) (l : list A) (ys : list B) :
  mapM f l = Ok ys ↔ Forall2 (λ x y, f x = Ok y) l ys.
Proof.
  revert ys. induction l as [|x l IH]; intros ys; simpl.
  - split; [intros [= <-]; constructor|by inversion 1].
  - destruct (f x) as [y|e] eqn:Hy; simpl.
    + destruct (mapM f l) as [ys'|e] eqn:Hl; simpl.
      * split.
        -- intros [= <-]. constructor; [done|by apply IH].
        -- inversion 1 as [|? y' ? ys'' Hy' Hys]; subst.
           apply IH in Hys. rewrite Hy in Hy'. by simplify_eq.
      * split; [done|].
        inversion 1 as [|? y' ? ys'' Hy' Hys]; subst. by apply IH in Hys.
    + split; [done|]. inversion 1; congruence.
Qed.

Lemma py_index_in_range {A} (l : list A) (i : Z) :
  - Z.of_nat (length l) ≤ i < Z.of_nat (length l) → is_ok (py_index l i) = true.
Proof.
  intros Hi. unfold py_index.
  destruct (decide (i < 0)).
  - rewrite decide_True by lia.
    destruct (lookup_lt_is_Some_2 l (Z.to_nat (Z.of_nat (length l) + i)))
      as [a ->]; [lia|done].
  - rewrite decide_True by lia.
    destruct (lookup_lt_is_Some_2 l (Z.to_nat i)) as [a ->]; [lia|done].
Qed.

Lemma select_in_range (dss : list dataset) (inds : list Z) :
  Forall (λ i, - Z.of_nat (length dss) ≤ i < Z.of_nat (length dss)) inds →
  ∃ children, Forall2 (λ i d, py_index dss i = Ok d) inds children.
Proof.
  induction 1 as [|i inds Hi _ [children IH]]; [by exists []|].
  apply py_index_in_range in Hi.
  destruct (py_index dss i) as [d|] eqn:Hd; [|done].
  exists (d :: children). by constructor.
Qed.

Lemma selects_exist (dss : list dataset) (split_ids : list (pyval * list Z)) :
  Forall (λ si, si.2 ≠ []
                ∧ Forall (λ i, - Z.of_nat (length dss) ≤ i
                               < Z.of_nat (length dss)) si.2) split_ids →
  ∃ groups, Forall2 (selects dss) split_ids groups.
Proof.
  induction 1 as [|[name inds] split_ids [Hne Hin] _ [groups IH]]; [by exists []|].
  destruct (select_in_range dss inds Hin) as [children Hch].
  exists ((name, children) :: groups). constructor; [|done].
  split; [done|]. split; [done|]. simpl in *.
  intros ->. inversion Hch; subst. done.
Qed.

Lemma split_build_parts (self : BaseConcatDataset.t) split_ids groups :
  Forall2 (selects (BaseConcatDataset.datasets self)) split_ids groups →
  ∀ σ,
    mapM (λ '(split_name, ds_inds),
            children ← lift (mapM (py_index (BaseConcatDataset.datasets self))
                               ds_inds);
            c ← BaseConcatDataset.__init__ children;
            mret (split_name, c)) split_ids σ
    = (Ok (parts_of groups σ), store_after groups σ).
Proof.
  induction 1 as [|[name inds] [name' children] split_ids groups
                   (Hname & Hsel & Hne) _ IH]; intros σ; [done|].
  simpl in Hname, Hsel, Hne. subst name'.
  apply mapM_result_Forall2 in Hsel.
  cbn [mapM]. rewrite M_bind_run, M_bind_lift, Hsel.
  rewrite (M_bind_Ok _ _ _ _ _ (BaseConcatDataset_init_run children σ Hne)).
  cbn [mret M_ret]. rewrite (M_bind_Ok _ _ _ _ _ (IH _)). done.
Qed.

Lemma split_build_run (self : BaseConcatDataset.t) split_ids groups σ :
  Forall2 (selects (BaseConcatDataset.datasets self)) split_ids groups →
  BaseConcatDataset.split_build self split_ids σ
  = (Ok (dict_of_items (parts_of groups σ)), store_after groups σ).
Proof.
  intros Hsel. unfold BaseConcatDataset.split_build.
  by rewrite (M_bind_Ok _ _ _ _ _ (split_build_parts self _ _ Hsel σ)).
Qed.

(** ** Dictionaries built from items with distinct keys *)

Lemma dict_fold_lookup_notin {V} (items : list (pyval * V)) :
  ∀ (m : gmap pyval V) (key : pyval),
  key ∉ items.*1 →
  foldl (λ m kv, <[kv.1 := kv.2]> m) m items !! key = m !! key.
Proof.
  induction items as [|[k v] items IH]; intros m key Hkey; [done|].
  simpl. rewrite fmap_cons, not_elem_of_cons in Hkey. destruct Hkey as [Hne Hkey].
  rewrite IH by done. simpl in Hne. by rewrite lookup_insert_ne.
Qed.

Lemma dict_fold_lookup {V} (items : list (pyval * V)) :
  ∀ (m : gmap pyval V) (key : pyval) (v : V),
  NoDup items.*1 → (key, v) ∈ items →
  foldl (λ m kv, <[kv.1 := kv.2]> m) m items !! key = Some v.
Proof.
  induction items as [|[k0 v0] items IH]; intros m key v Hnd Hin.
  { by apply elem_of_nil in Hin. }
  rewrite fmap_cons in Hnd. apply NoDup_cons in Hnd as [Hk0 Hnd].
  simpl. apply elem_of_cons in Hin as [[= -> ->]|Hin].
  - rewrite dict_fold_lookup_notin by done. simpl. apply lookup_insert_eq.
  - by apply IH.
Qed.

Lemma dict_of_items_lookup {V} (items : list (pyval * V)) key v :
  NoDup items.*1 → (key, v) ∈ items → dict_of_items items !! key = Some v.
Proof. apply dict_fold_lookup. Qed.

Lemma dict_fold_dom {V} (items : list (pyval * V)) : ∀ m : gmap pyval V,
  dom (foldl (λ m kv, <[kv.1 := kv.2]> m) m items)
  = dom m ∪ list_to_set items.*1.
Proof.
  induction items as [|[k v] items IH]; intros m; simpl.
  - by rewrite (right_id_L ∅ (∪)).
  - rewrite IH, dom_insert_L.
    rewrite (comm_L (∪) {[k]} (dom m)). by rewrite (assoc_L (∪)).
Qed.

Lemma dict_of_items_dom {V} (items : list (pyval * V)) :
  dom (dict_of_items items) = list_to_set items.*1.
Proof.
  unfold dict_of_items. rewrite dict_fold_dom, dom_empty_L.
  by rewrite (left_id_L ∅ (∪)).
Qed.

Global Instance PyInt_inj : Inj (=) (=) PyInt.
Proof.
  intros a b H.
  assert (H' : Q2Qc (inject_Z a) = Q2Qc (inject_Z b))
    by exact (f_equal (λ v, if v is PyNum q then q else Q2Qc 0) H).
  exact (proj1 (inject_Z_injective _ _) (proj1 (Q2Qc_eq_iff _ _) H')).
Qed.

Lemma enumerate_keys {A} (xs : list A) :
  (enumerate xs).*1 = (λ k, PyInt (Z.of_nat k)) <$> seq 0 (length xs).
Proof.
  unfold enumerate. rewrite fmap_imap. by rewrite <-imap_seq_0.
Qed.

Lemma enumerate_keys_NoDup {A} (xs : list A) : NoDup (enumerate xs).*1.
Proof.
  rewrite enumerate_keys. apply NoDup_fmap_2; [|apply NoDup_seq].
  intros a b H. apply (inj PyInt) in H. lia.
Qed.

Lemma enumerate_lookup {A} (xs : list A) (k : nat) :
  enumerate xs !! k = (λ x, (PyInt (Z.of_nat k), x)) <$> xs !! k.
Proof. unfold enumerate. by rewrite list_lookup_imap. Qed.

(** ** The concatenations built by [split] *)

Lemma init_store_frames_dom children σ :
  dom (frames σ) ⊆ dom (frames (init_store children σ)).
Proof.
  unfold init_store. simpl. rewrite dom_insert_L. apply union_subseteq_r.
Qed.

Lemma init_value_fresh children σ :
  BaseConcatDataset._description (init_value children σ) ∉ dom (frames σ).
Proof. unfold init_value. simpl. apply is_fresh. Qed.

Lemma parts_of_keys groups : ∀ σ, (parts_of groups σ).*1 = groups.*1.
Proof.
  induction groups as [|g groups IH]; intros σ; [done|].
  simpl. by rewrite IH.
Qed.

Lemma parts_of_lookup groups : ∀ σ k g,
  groups !! k = Some g →
  ∃ σk, parts_of groups σ !! k = Some (g.1, init_value g.2 σk)
        ∧ dom (frames σ) ⊆ dom (frames σk).
Proof.
  induction groups as [|g0 groups IH]; intros σ k g Hk; [done|].
  destruct k as [|k]; simpl in *.
  - injection Hk as ->. by exists σ.
  - destruct (IH (init_store g0.2 σ) k g Hk) as (σk & Hp & Hsub).
    exists σk. split; [done|].
    etrans; [apply (init_store_frames_dom g0.2 σ)|done].
Qed.

Lemma selects_keys dss split_ids groups :
  Forall2 (selects dss) split_ids groups → groups.*1 = split_ids.*1.
Proof.
  induction 1 as [|si g split_ids groups (Hname & _) _ IH]; [done|].
  rewrite !fmap_cons. by rewrite IH, Hname.
Qed.

(** What the comprehension returns when every index list selects children:
    one concatenation per name, holding the selected children in the order
    of the indices, with a description table allocated by the call. *)
Lemma split_build_spec (self : BaseConcatDataset.t) split_ids groups σ :
  Forall2 (selects (BaseConcatDataset.datasets self)) split_ids groups →
  NoDup split_ids.*1 →
  ∃ m σ',
    BaseConcatDataset.split_build self split_ids σ = (Ok m, σ')
    ∧ dom m = list_to_set split_ids.*1
    ∧ ∀ k name inds,
        split_ids !! k = Some (name, inds) →
        ∃ ck, m !! name = Some ck
              ∧ Forall2 (λ i d, py_index (BaseConcatDataset.datasets self) i
                                = Ok d) inds (BaseConcatDataset.datasets ck)
              ∧ (BaseConcatDataset._description ck ∉ dom (frames σ))
              ∧ BaseConcatDataset.__len__ ck
                = Ok (Z.of_nat (sum_list (ds_len <$> BaseConcatDataset.datasets ck))).
Proof.
  intros Hsel Hnd.
  exists (dict_of_items (parts_of groups σ)), (store_after groups σ).
  split; [by apply split_build_run|].
  pose proof (selects_keys _ _ _ Hsel) as Hkeys.
  split; [by rewrite dict_of_items_dom, parts_of_keys, Hkeys|].
  intros k name inds Hk.
  destruct (Forall2_lookup_l _ _ _ _ _ Hsel Hk) as ([name' children] & Hg & Hs).
  destruct Hs as (Hname & Hch & Hne). simpl in Hname, Hch, Hne. subst name'.
  destruct (parts_of_lookup groups σ k _ Hg) as (σk & Hp & Hsub).
  exists (init_value children σk). split; [|split; [done|split]].
  - apply dict_of_items_lookup.
    + by rewrite parts_of_keys, Hkeys.
    + by apply list_elem_of_lookup_2 in Hp.
  - intros Hin. apply (init_value_fresh children σk). by apply Hsub.
  - by apply ConcatDataset_len.
Qed.

Lemma Forall_enumerate {A} (P : A → Prop) (xs : list A) :
  Forall P xs → Forall (λ si, P si.2) (enumerate xs).
Proof.
  intros H. apply Forall_lookup. intros k [name x] Hk.
  rewrite enumerate_lookup in Hk.
  destruct (xs !! k) as [x'|] eqn:Hx; [|done]. injection Hk as _ <-.
  by eapply Forall_lookup_1 in H.
Qed.

(** C6.  [split] with index groups, each of them non-empty and made of
    indices of children (negative ones count from the end, as everywhere in
    Python): the call returns a mapping whose keys are the positions
    [0, 1, 2, ...] of the groups, and whose value at position [k] is a
    [BaseConcatDataset] built by this call (its description table is a new
    object) that holds exactly the children at the indices of group [k], in
    the order given; its length is the sum of their lengths.  In particular,
    on three children the groups [[0, 2], [1]] give two concatenations
    holding children 0 and 2, of length [len 0 + len 2], and child 1, of
    length [len 1]. *)
Theorem split_by_index_groups (c : BaseConcatDataset.t)
    (prop : option string) (ids : list (list Z)) (σ : store) :
  let dss := BaseConcatDataset.datasets c in
  Forall (λ g, g ≠ []
               ∧ Forall (λ i, - Z.of_nat (length dss) ≤ i
                              < Z.of_nat (length dss)) g) ids →
  ∃ m σ',
    BaseConcatDataset.split c prop (Some ids) σ = (Ok m, σ')
    ∧ dom m = list_to_set ((λ k, PyInt (Z.of_nat k)) <$> seq 0 (length ids))
    ∧ (∀ (k : nat) g,
         ids !! k = Some g →
         ∃ ck, m !! PyInt (Z.of_nat k) = Some ck
               ∧ Forall2 (λ i d, py_index dss i = Ok d) g
                   (BaseConcatDataset.datasets ck)
               ∧ (BaseConcatDataset._description ck ∉ dom (frames σ))
               ∧ BaseConcatDataset.__len__ ck
                 = Ok (Z.of_nat
                         (sum_list (ds_len <$> BaseConcatDataset.datasets ck))))
    ∧ (∀ d0 d1 d2,
         dss = [d0; d1; d2] → ids = [[0; 2]; [1]] →
         ∃ c0 c1,
           m !! PyInt 0 = Some c0 ∧ m !! PyInt 1 = Some c1
           ∧ BaseConcatDataset.datasets c0 = [d0; d2]
           ∧ BaseConcatDataset.datasets c1 = [d1]
           ∧ BaseConcatDataset.__len__ c0
             = Ok (Z.of_nat (ds_len d0 + ds_len d2))
           ∧ BaseConcatDataset.__len__ c1 = Ok (Z.of_nat (ds_len d1))).
Proof.
  intros dss Hvalid.
  assert (Hsplit : BaseConcatDataset.split c prop (Some ids) σ
                   = BaseConcatDataset.split_build c (enumerate ids) σ)
    by (by destruct prop).
  destruct (selects_exist dss (enumerate ids)) as [groups Hsel].
  { by apply (Forall_enumerate _ _ Hvalid). }
  destruct (split_build_spec c _ _ σ Hsel (enumerate_keys_NoDup ids))
    as (m & σ' & Hrun & Hdom & Hgroups).
  assert (Hat : ∀ (k : nat) g, ids !! k = Some g →
            ∃ ck, m !! PyInt (Z.of_nat k) = Some ck
                  ∧ Forall2 (λ i d, py_index dss i = Ok d) g
                      (BaseConcatDataset.datasets ck)
                  ∧ (BaseConcatDataset._description ck ∉ dom (frames σ))
                  ∧ BaseConcatDataset.__len__ ck
                    = Ok (Z.of_nat
                            (sum_list (ds_len <$> BaseConcatDataset.datasets ck)))).
  { intros k g Hk. apply (Hgroups k). by rewrite enumerate_lookup, Hk. }
  exists m, σ'. split; [by rewrite Hsplit|].
  split; [by rewrite Hdom, enumerate_keys|]. split; [exact Hat|].
  intros d0 d1 d2 Hdss ->.
  destruct (Hat 0%nat [0; 2] eq_refl) as (c0 & Hc0 & Hsel0 & _ & Hlen0).
  destruct (Hat 1%nat [1] eq_refl) as (c1 & Hc1 & Hsel1 & _ & Hlen1).
  exists c0, c1. rewrite Hdss in Hsel0, Hsel1.
  assert (BaseConcatDataset.datasets c0 = [d0; d2]) as Hd0.
  { apply Forall2_cons_inv_l in Hsel0 as (e0 & r0 & He0 & Hr0 & ->).
    apply Forall2_cons_inv_l in Hr0 as (e2 & r2 & He2 & Hr2 & ->).
    apply Forall2_nil_inv_l in Hr2 as ->.
    injection He0 as ->. injection He2 as ->. done. }
  assert (BaseConcatDataset.datasets c1 = [d1]) as Hd1.
  { apply Forall2_cons_inv_l in Hsel1 as (e1 & r1 & He1 & Hr1 & ->).
    apply Forall2_nil_inv_l in Hr1 as ->.
    injection He1 as ->. done. }
  rewrite Hd0 in Hlen0. rewrite Hd1 in Hlen1. simpl in Hlen0, Hlen1.
  rewrite Nat.add_0_r in Hlen0, Hlen1. done.
Qed.

Lemma split_by_index_groups_witness :
  ∃ m σ',
    BaseConcatDataset.split concat_abc None (Some [[0; 2]; [1]]) store0
    = (Ok m, σ')
    ∧ ∃ c0 c1,
        m !! PyInt 0 = Some c0 ∧ m !! PyInt 1 = Some c1
        ∧ BaseConcatDataset.datasets c0 = [DBase ds_a; DBase ds_c]
        ∧ BaseConcatDataset.datasets c1 = [DBase ds_b]
        ∧ BaseConcatDataset.__len__ c0 = Ok 4
        ∧ BaseConcatDataset.__len__ c1 = Ok 2.
Proof.
  destruct (split_by_index_groups concat_abc None [[0; 2]; [1]] store0)
    as (m & σ' & Hrun & _ & _ & H3).
  { repeat constructor; simpl; done || lia. }
  exists m, σ'. split; [exact Hrun|].
  exact (H3 _ _ _ eq_refl eq_refl).
Defined.

(** ** Grouping the rows of a table *)

Lemma positions_elem (vals : list pyval) (v : pyval) (z : Z) :
  z ∈ positions vals v ↔ ∃ i : nat, z = Z.of_nat i ∧ vals !! i = Some v.
Proof.
  unfold positions. rewrite list_elem_of_fmap. split.
  - intros (i & -> & Hi). apply list_elem_of_filter in Hi as [Hi _]. eauto.
  - intros (i & -> & Hi). exists i. split; [done|].
    apply list_elem_of_filter. split; [done|].
    apply elem_of_seq. apply lookup_lt_Some in Hi. lia.
Qed.

Lemma positions_NoDup (vals : list pyval) (v : pyval) : NoDup (positions vals v).
Proof.
  unfold positions. apply NoDup_fmap_2; [apply _|].
  apply NoDup_filter, NoDup_seq.
Qed.

Lemma filter_iff_in {A} (P1 P2 : A → Prop) `{∀ x, Decision (P1 x)}
    `{∀ x, Decision (P2 x)} (l : list A) :
  (∀ x, x ∈ l → P1 x ↔ P2 x) → filter P1 l = filter P2 l.
Proof.
  induction l as [|x l IH]; [done|]. intros Hiff.
  rewrite !filter_cons.
  rewrite IH by (intros y Hy; apply Hiff; by right).
  destruct (decide (P1 x)) as [H1|H1].
  - rewrite decide_True; [done|]. apply Hiff; [by left|done].
  - rewrite decide_False; [done|]. intros H2. apply H1, Hiff; [by left|done].
Qed.

(** Under a [RangeIndex] the labels of a group are the positions of its
    rows. *)
Lemma group_labels_range (vals : list pyval) (v : pyval) :
  group_labels (range_index (length vals)) vals v = positions vals v.
Proof.
  unfold group_labels, range_index, positions.
  induction vals as [|x vals IH] using rev_ind; [done|].
  rewrite length_app, Nat.add_comm. cbn [length Nat.add].
  rewrite seq_S, fmap_app. cbn [Nat.add fmap list_fmap].
  rewrite zip_with_app by (by rewrite length_fmap, length_seq).
  rewrite !filter_app, !fmap_app, IH. f_equal.
  - f_equal. apply filter_iff_in. intros i Hi.
    apply elem_of_seq in Hi. by rewrite lookup_app_l by lia.
  - cbn [zip_with]. rewrite !filter_cons, !filter_nil. cbn [snd].
    rewrite lookup_app_r, Nat.sub_diag by lia. cbn [lookup list_lookup].
    destruct (decide (x = v)) as [->|Hne].
    + by rewrite decide_True.
    + rewrite decide_False; [done|]. by intros [= ?].
Qed.

Lemma group_keys_elem (vals : list pyval) (v : pyval) :
  v ∈ group_keys vals ↔ v ∈ vals ∧ isna v = false.
Proof.
  unfold group_keys. rewrite elem_of_remove_dups, list_elem_of_filter. tauto.
Qed.

Lemma group_keys_NoDup (vals : list pyval) : NoDup (group_keys vals).
Proof. apply NoDup_remove_dups. Qed.

Lemma non_null_positions_elem (vals : list pyval) (z : Z) :
  z ∈ non_null_positions vals
  ↔ ∃ (i : nat) v, z = Z.of_nat i ∧ vals !! i = Some v ∧ isna v = false.
Proof.
  unfold non_null_positions. rewrite list_elem_of_fmap. split.
  - intros (i & -> & Hi). apply list_elem_of_filter in Hi as [Hna Hi].
    apply elem_of_seq in Hi.
    destruct (lookup_lt_is_Some_2 vals i) as [v Hv]; [lia|].
    rewrite (list_lookup_total_correct _ _ _ Hv) in Hna. eauto.
  - intros (i & v & -> & Hv & Hna). exists i. split; [done|].
    apply list_elem_of_filter. split.
    + by rewrite (list_lookup_total_correct _ _ _ Hv).
    + apply elem_of_seq. apply lookup_lt_Some in Hv. lia.
Qed.

(** The groups are a disjoint cover of the rows that carry a value. *)
Lemma groups_partition (vals : list pyval) :
  group_keys vals ≫= positions vals ≡ₚ non_null_positions vals.
Proof.
  apply NoDup_Permutation.
  - apply NoDup_bind; [|intros; apply positions_NoDup|apply group_keys_NoDup].
    intros v1 v2 z _ _ H1 H2.
    apply positions_elem in H1 as (i1 & -> & H1).
    apply positions_elem in H2 as (i2 & Hi & H2).
    apply (inj Z.of_nat) in Hi as <-. congruence.
  - unfold non_null_positions. apply NoDup_fmap_2; [apply _|].
    apply NoDup_filter, NoDup_seq.
  - intros z. rewrite list_elem_of_bind, non_null_positions_elem. split.
    + intros (v & Hz & Hv). apply positions_elem in Hz as (i & -> & Hi).
      apply group_keys_elem in Hv as [_ Hna]. eauto.
    + intros (i & v & -> & Hv & Hna). exists v. split.
      * apply positions_elem. eauto.
      * apply group_keys_elem. split; [|done]. by eapply list_elem_of_lookup_2.
Qed.

Lemma filter_Forall_id {A} (P : A → Prop) `{∀ x, Decision (P x)} (l : list A) :
  Forall P l → filter P l = l.
Proof.
  induction 1 as [|x l Hx _ IH]; [done|].
  rewrite filter_cons_True by done. by rewrite IH.
Qed.

Lemma non_null_positions_all (vals : list pyval) :
  Forall (λ v, isna v = false) vals →
  non_null_positions vals = Z.of_nat <$> seq 0 (length vals).
Proof.
  intros Hall. unfold non_null_positions. f_equal.
  apply filter_Forall_id. apply Forall_forall. intros i Hi.
  apply elem_of_seq in Hi.
  destruct (lookup_lt_is_Some_2 vals i) as [v Hv]; [lia|].
  rewrite (list_lookup_total_correct _ _ _ Hv).
  by eapply Forall_lookup_1 in Hall.
Qed.

(** C7 (as amended).  [split] by a property, on a concatenation whose
    description can be read and whose table has one row per child, is
    indexed by the children's positions [0 .. n-1] (the index that the
    table gets at construction from description rows without names) and
    carries the property as a column.  With [vals] the column: the call
    returns a mapping with one group per distinct value of the column that
    is not missing, labelled by the value; the group of [v] holds the
    children at the positions whose row carries [v], in increasing order
    of position.  The groups are a disjoint cover of the children whose row
    carries a value; a child whose row has no value for the property (it
    reads as NaN in the table) is in no group.  When every row carries a
    value, the groups are a disjoint cover of all the children. *)
Theorem split_by_property (c : BaseConcatDataset.t) (prop : string)
    (σ : store) (l : loc) :
  let dss := BaseConcatDataset.datasets c in
  let r := BaseConcatDataset.description c σ in
  r.1 = Ok l →
  let T := frame_at r.2 l in
  let vals := (λ row, cell row prop) <$> fr_rows T in
  length (fr_rows T) = length dss →
  fr_index T = range_index (length dss) →
  prop ∈ fr_columns T →
  ∃ m σ',
    BaseConcatDataset.split c (Some prop) None σ = (Ok m, σ')
    ∧ (∀ v, v ∈ dom m ↔ v ∈ vals ∧ isna v = false)
    ∧ (∀ v, v ∈ dom m →
         ∃ ck, m !! v = Some ck
               ∧ Forall2 (λ i d, py_index dss i = Ok d) (positions vals v)
                   (BaseConcatDataset.datasets ck))
    ∧ (∀ (i : nat) v, Z.of_nat i ∈ positions vals v ↔ vals !! i = Some v)
    ∧ elements (dom m) ≫= positions vals ≡ₚ non_null_positions vals
    ∧ (Forall (λ v, isna v = false) vals →
       elements (dom m) ≫= positions vals
       ≡ₚ Z.of_nat <$> seq 0 (length dss)).
Proof.
  intros dss r Hr T vals Hlen Hidx Hcol.
  set (split_ids := (λ v, (v, positions vals v)) <$> group_keys vals).
  assert (Hkeys : split_ids.*1 = group_keys vals).
  { unfold split_ids. rewrite <-list_fmap_compose. apply list_fmap_id. }
  assert (Hlenv : length vals = length dss)
    by (unfold vals; by rewrite length_fmap).
  destruct (selects_exist dss split_ids) as [groups Hsel].
  { apply Forall_fmap, Forall_forall. intros v Hv. simpl.
    apply group_keys_elem in Hv as [Hv _].
    apply list_elem_of_lookup_1 in Hv as [i Hi]. split.
    - intros Hnil.
      assert (Z.of_nat i ∈ positions vals v) as Hin
        by (apply positions_elem; eauto).
      rewrite Hnil in Hin. by apply elem_of_nil in Hin.
    - apply Forall_forall. intros z Hz.
      apply positions_elem in Hz as (j & -> & Hj).
      apply lookup_lt_Some in Hj. lia. }
  destruct (split_build_spec c split_ids groups r.2 Hsel) as
    (m & σ' & Hrun & Hdom & Hgroups).
  { rewrite Hkeys. apply group_keys_NoDup. }
  rewrite Hkeys in Hdom.
  assert (Hperm : elements (dom m) ≫= positions vals ≡ₚ non_null_positions vals).
  { rewrite Hdom, (elements_list_to_set _ (group_keys_NoDup vals)).
    apply groups_partition. }
  exists m, σ'. split; [|split; [|split; [|split; [|split]]]].
  - unfold BaseConcatDataset.split.
    rewrite M_bind_run. rewrite (M_bind_run (BaseConcatDataset.description c)).
    fold r. destruct r as [res σ1]. simpl in Hr. subst res.
    unfold frame_read. simpl. rewrite M_bind_lift.
    unfold groupby_groups. rewrite decide_True by done.
    change (frame_at σ1 l) with T.
    change ((λ r : row, cell r prop) <$> fr_rows T) with vals.
    rewrite Hidx, <-Hlenv.
    rewrite (list_fmap_ext _ (λ v, (v, positions vals v)) (group_keys vals))
      by (intros; by rewrite group_labels_range).
    exact Hrun.
  - intros v. rewrite Hdom, elem_of_list_to_set. apply group_keys_elem.
  - intros v Hv. rewrite Hdom, elem_of_list_to_set in Hv.
    apply list_elem_of_lookup_1 in Hv as [k Hk].
    destruct (Hgroups k v (positions vals v)) as (ck & Hck & Hch & _).
    { unfold split_ids. by rewrite list_lookup_fmap, Hk. }
    by exists ck.
  - intros i v. rewrite positions_elem. split; [|by eauto].
    intros (j & Hij & Hj). by apply (inj Z.of_nat) in Hij as ->.
  - exact Hperm.
  - intros Hall. rewrite Hperm, (non_null_positions_all _ Hall). by rewrite Hlenv.
Qed.

Lemma split_by_property_witness :
  (BaseConcatDataset.description concat_ad store_ad).1 = Ok 0%nat
  ∧ ∃ m σ',
      BaseConcatDataset.split concat_ad (Some "subject") None store_ad
      = (Ok m, σ')
      ∧ (∀ v, v ∈ dom m →
           ∃ ck, m !! v = Some ck
                 ∧ BaseConcatDataset.datasets ck ≠ []).
Proof.
  assert (Hr : (BaseConcatDataset.description concat_ad store_ad).1 = Ok 0%nat)
    by (vm_compute; reflexivity).
  split; [exact Hr|].
  destruct (split_by_property concat_ad "subject" store_ad 0%nat Hr)
    as (m & σ' & Hrun & Hdom & Hgroups & _).
  - vm_compute. reflexivity.
  - vm_compute. reflexivity.
  - refine (bool_decide_unpack _ _). vm_compute. exact I.
  - exists m, σ'. split; [exact Hrun|].
    intros v Hv. destruct (Hgroups v Hv) as (ck & Hck & Hsel).
    exists ck. split; [exact Hck|].
    intros Hnil. rewrite Hnil in Hsel. apply Forall2_nil_inv_r in Hsel.
    apply Hdom in Hv as [Hv _].
    apply list_elem_of_lookup_1 in Hv as [i Hi].
    assert (Z.of_nat i ∈ positions
              ((λ row, cell row "subject")
                 <$> fr_rows (frame_at
                      (BaseConcatDataset.description concat_ad store_ad).2 0%nat))
              v) as Hin by (apply positions_elem; eauto).
    rewrite Hsel in Hin. by apply elem_of_nil in Hin.
Defined.

(** C7, as stated, fails when a child's description lacks the property:
    the column exists, the child's row reads as NaN in it, and the child is
    in no group.  Here the only group is that of subject 1, with the first
    of the two children. *)
Lemma split_by_property_counterexample :
  (λ m : gmap pyval BaseConcatDataset.t,
     map_to_list (BaseConcatDataset.datasets <$> m))
    <$> (split_by_subject store0).1
  = Ok [(PyInt 1, [DBase (BaseDataset.mk raw_a 0%nat PyNone)])].
Proof. vm_compute. reflexivity. Qed.

(** ** Reading descriptions again *)

Lemma BaseConcatDataset_description_outcome (c : BaseConcatDataset.t) σ :
  BaseConcatDataset.description c σ
  = match description_outcome (BaseConcatDataset.datasets c) with
    | Ok st =>
        (Ok (BaseConcatDataset._description c),
         Store (series σ)
           (alter st (BaseConcatDataset._description c) (frames σ)))
    | Raise e => (Raise e, σ)
    end.
Proof.
  unfold description_outcome. case_decide as Hhom.
  - rewrite (BaseConcatDataset_description_run c σ Hhom).
    repeat case_decide; try done.
    by destruct (BaseConcatDataset.datasets c).
  - by apply BaseConcatDataset_description_mixed.
Qed.

Lemma refresh_series_snoc dss ds s :
  refresh_series (dss ++ [ds]) s = ds_refresh_series (refresh_series dss s) ds.
Proof. unfold refresh_series. apply foldl_snoc. Qed.

Lemma refresh_series_app dss1 dss2 s :
  refresh_series (dss1 ++ dss2) s = refresh_series dss2 (refresh_series dss1 s).
Proof. unfold refresh_series. apply foldl_app. Qed.

Lemma last_write_snoc dss ds l :
  last_write (dss ++ [ds]) l
  = if decide (ds_loc ds = l)
    then Some (info_sfreq (ds_backend ds), length (ch_names (ds_backend ds)))
    else last_write dss l.
Proof. unfold last_write. by rewrite foldl_snoc. Qed.

(** The row at [l] after the getters of [dss] have run: the last child that
    holds the row decides. *)
Lemma refresh_series_lookup dss s l :
  refresh_series dss s !! l
  = (match last_write dss l with
     | Some w => refresh w.1 w.2
     | None => id
     end) <$> s !! l.
Proof.
  induction dss as [|ds dss IH] using rev_ind.
  - simpl. by rewrite option_fmap_id.
  - rewrite refresh_series_snoc, last_write_snoc. unfold ds_refresh_series.
    rewrite lookup_alter. case_decide as Hl.
    + subst l. rewrite IH. simpl. rewrite <-option_fmap_compose.
      apply option_fmap_ext. intros r. simpl.
      destruct (last_write dss _); simpl; [|done]. apply refresh_refresh.
    + exact IH.
Qed.

Lemma refresh_series_idemp dss s :
  refresh_series dss (refresh_series dss s) = refresh_series dss s.
Proof.
  apply map_eq. intros l. rewrite !refresh_series_lookup.
  rewrite <-option_fmap_compose. apply option_fmap_ext. intros r. simpl.
  destruct (last_write dss l); simpl; [|done]. apply refresh_refresh.
Qed.

(** ** Splitting into singletons and concatenating again *)

Lemma store_after_series groups : ∀ σ,
  series (store_after groups σ) = refresh_series (mjoin groups.*2) (series σ).
Proof.
  induction groups as [|g groups IH]; intros σ; [done|].
  change (store_after (g :: groups) σ)
    with (store_after groups (init_store g.2 σ)).
  rewrite IH. rewrite fmap_cons. simpl. by rewrite refresh_series_app.
Qed.

Lemma store_after_frames groups : ∀ σ l,
  l ∈ dom (frames σ) → frames (store_after groups σ) !! l = frames σ !! l.
Proof.
  induction groups as [|g groups IH]; intros σ l Hl; [done|].
  change (store_after (g :: groups) σ)
    with (store_after groups (init_store g.2 σ)).
  rewrite IH by (by apply init_store_frames_dom).
  unfold init_store. simpl. apply lookup_insert_ne.
  intros Heq. rewrite <-Heq in Hl. by apply is_fresh in Hl.
Qed.

Lemma parts_of_datasets groups : ∀ σ,
  BaseConcatDataset.datasets <$> (parts_of groups σ).*2 = groups.*2.
Proof.
  induction groups as [|g groups IH]; intros σ; [done|].
  simpl. by rewrite IH.
Qed.

Lemma singleton_groups_select (dss : list dataset) :
  Forall2 (selects dss) (enumerate (singleton_groups (length dss)))
    (imap (λ i d, (PyInt (Z.of_nat i), [d])) dss).
Proof.
  apply Forall2_same_length_lookup_2.
  - unfold enumerate, singleton_groups.
    by rewrite !length_imap, length_fmap, length_seq.
  - intros i [name inds] [name' ch] Hi Hg.
    rewrite enumerate_lookup in Hi. unfold singleton_groups in Hi.
    rewrite list_lookup_fmap in Hi. rewrite list_lookup_imap in Hg.
    destruct (dss !! i) as [d|] eqn:Hd; [|done].
    rewrite lookup_seq_lt in Hi by (by eapply lookup_lt_Some).
    simpl in Hi, Hg. injection Hi as <- <-. injection Hg as <- <-.
    split; [done|]. split; [|done]. simpl.
    constructor; [|constructor]. by rewrite py_index_nat, Hd.
Qed.

Lemma singleton_groups_join (dss : list dataset) :
  mjoin (imap (λ i d, (PyInt (Z.of_nat i), [d])) dss).*2 = dss.
Proof.
  assert (H : ∀ g : nat → pyval, mjoin (imap (λ i d, (g i, [d])) dss).*2 = dss).
  { induction dss as [|d dss IH]; intros g; [done|].
    rewrite imap_cons, fmap_cons. simpl. f_equal. apply (IH (g ∘ S)). }
  apply (H (λ i, PyInt (Z.of_nat i))).
Qed.

(** Looking the parts up by position gives them back in order. *)
Lemma parts_by_position {A} (xs : list A) (f : nat → A → list dataset) σ :
  let groups := imap (λ i x, (PyInt (Z.of_nat i), f i x)) xs in
  mapM (λ i, dict_getitem (dict_of_items (parts_of groups σ))
               (PyInt (Z.of_nat i))) (seq 0 (length xs))
  = Ok (parts_of groups σ).*2.
Proof.
  intros groups. apply mapM_result_Forall2.
  assert (Hkeys : (parts_of groups σ).*1
                  = (λ k, PyInt (Z.of_nat k)) <$> seq 0 (length xs)).
  { rewrite parts_of_keys. unfold groups. rewrite fmap_imap.
    rewrite (imap_ext _ (λ i _, PyInt (Z.of_nat i))) by done.
    by rewrite imap_seq_0. }
  apply Forall2_same_length_lookup_2.
  - rewrite length_seq, length_fmap.
    rewrite <-(length_fmap fst), Hkeys. by rewrite length_fmap, length_seq.
  - intros i j p Hj Hp. apply lookup_seq in Hj as [-> Hi]. simpl.
    rewrite list_lookup_fmap in Hp.
    destruct (parts_of groups σ !! i) as [[name p']|] eqn:Hpi; [|done].
    simpl in Hp. injection Hp as ->.
    assert (name = PyInt (Z.of_nat i)) as ->.
    { assert ((parts_of groups σ).*1 !! i = Some name) as Hn
        by (by rewrite list_lookup_fmap, Hpi).
      rewrite Hkeys, list_lookup_fmap, lookup_seq_lt in Hn by done.
      by injection Hn as <-. }
    unfold dict_getitem. rewrite (dict_of_items_lookup _ _ p); [done| |].
    + rewrite Hkeys. apply NoDup_fmap_2; [|apply NoDup_seq].
      intros a b H. apply (inj PyInt) in H. lia.
    + by eapply list_elem_of_lookup_2.
Qed.

Lemma rows_of_series dss σ σ' :
  series σ = series σ' → rows_of dss σ = rows_of dss σ'.
Proof. intros H. unfold rows_of, series_at. by rewrite H. Qed.

(** The split into singletons and the lookup of the parts, from any store. *)
Lemma singleton_split_run (c : BaseConcatDataset.t) σ :
  let dss := BaseConcatDataset.datasets c in
  ∃ splits σ' parts,
    BaseConcatDataset.split c None (Some (singleton_groups (length dss))) σ
    = (Ok splits, σ')
    ∧ mapM (λ i, dict_getitem splits (PyInt (Z.of_nat i))) (seq 0 (length dss))
      = Ok parts
    ∧ parts ≫= BaseConcatDataset.datasets = dss
    ∧ series σ' = refresh_series dss (series σ)
    ∧ ∀ l, l ∈ dom (frames σ) → frames σ' !! l = frames σ !! l.
Proof.
  intros dss.
  set (groups := imap (λ i d, (PyInt (Z.of_nat i), [d])) dss).
  exists (dict_of_items (parts_of groups σ)), (store_after groups σ),
    (parts_of groups σ).*2.
  split; [|split; [|split; [|split]]].
  - apply (split_build_run c _ groups σ). apply singleton_groups_select.
  - apply (parts_by_position dss (λ _ d, [d]) σ).
  - rewrite <-(list_fmap_bind BaseConcatDataset.datasets id
                 (parts_of groups σ).*2).
    rewrite parts_of_datasets, <-list_join_bind. apply singleton_groups_join.
  - rewrite store_after_series. unfold groups.
    by rewrite singleton_groups_join.
  - intros l Hl. by apply store_after_frames.
Qed.

(** C8.  From a non-empty list of children: build the concatenation, read
    its description, split it by index into the singleton groups
    [[0], [1], ..., [n-1]], concatenate the children of the parts in the
    order of the positions, and read the description of the result.  The two
    reads have the same outcome: either both raise the same exception, or
    they return two tables with the same columns and the same rows in the
    same order. *)
Theorem split_roundtrip_description (children : list dataset) (σ : store) :
  children ≠ [] →
  ∃ t σ', split_roundtrip children σ = (Ok (t, t), σ').
Proof.
  intros Hne. unfold split_roundtrip.
  rewrite (M_bind_Ok _ _ _ _ _ (BaseConcatDataset_init_run children σ Hne)).
  set (c0 := init_value children σ). set (σ1 := init_store children σ).
  set (f0 := fresh (dom (frames σ))).
  set (T0 := frame_of_rows (rows_of children (refresh_all children σ))).
  assert (Hd0 : BaseConcatDataset.datasets c0 = children) by done.
  (* the read of the original *)
  assert (∃ r0 σ2,
            attempt (BaseConcatDataset.description c0) σ1 = (Ok r0, σ2)
            ∧ series σ2 = refresh_series children (series σ)
            ∧ f0 ∈ dom (frames σ2)
            ∧ match description_outcome children with
              | Ok st => r0 = Ok f0 ∧ frames σ2 !! f0 = Some (st T0)
              | Raise e => r0 = Raise e
              end) as (r0 & σ2 & Hread0 & Hs2 & Hf0 & Hr0).
  { unfold attempt. rewrite (BaseConcatDataset_description_outcome c0 σ1), Hd0.
    destruct (description_outcome children) as [st|e]; eexists _, _;
      (split; [reflexivity|]); (split; [done|]); simpl.
    - split; [|split; [done|]].
      + apply elem_of_dom. rewrite lookup_alter_eq, lookup_insert_eq. by eexists.
      + by rewrite lookup_alter_eq, lookup_insert_eq.
    - split; [|done]. rewrite dom_insert_L. apply elem_of_union_l.
      by apply elem_of_singleton. }
  rewrite (M_bind_Ok _ _ _ _ _ Hread0).
  (* the split and the parts *)
  destruct (singleton_split_run c0 σ2)
    as (splits & σ3 & parts & Hsplit & Hparts & Hjoin & Hs3 & Hfr3).
  rewrite Hd0 in Hsplit, Hparts, Hjoin, Hs3.
  rewrite (M_bind_Ok _ _ _ _ _ Hsplit).
  rewrite M_bind_lift, Hparts, Hjoin.
  (* the second concatenation *)
  rewrite (M_bind_Ok _ _ _ _ _ (BaseConcatDataset_init_run children σ3 Hne)).
  set (c1 := init_value children σ3). set (σ4 := init_store children σ3).
  set (f1 := fresh (dom (frames σ3))).
  assert (Hf03 : f0 ∈ dom (frames σ3)).
  { apply elem_of_dom. rewrite (Hfr3 f0 Hf0). by apply elem_of_dom. }
  assert (Hne01 : f1 ≠ f0).
  { intros Heq. rewrite <-Heq in Hf03. by apply is_fresh in Hf03. }
  assert (HT1 : frame_of_rows (rows_of children (refresh_all children σ3)) = T0).
  { unfold T0. f_equal. apply rows_of_series. simpl.
    by rewrite Hs3, Hs2, !refresh_series_idemp. }
  rewrite M_bind_run. unfold attempt.
  rewrite (BaseConcatDataset_description_outcome c1 σ4).
  change (BaseConcatDataset.datasets c1) with children.
  destruct (description_outcome children) as [st|e].
  - destruct Hr0 as [-> Hst].
    unfold get_store. rewrite M_bind_run. cbn [mret M_ret fmap result_fmap].
    set (σ5 := Store (series σ4)
                 (alter st (BaseConcatDataset._description c1) (frames σ4))).
    assert (H0 : frame_at σ5 f0 = st T0).
    { unfold frame_at, σ5. simpl. fold f1.
      rewrite lookup_alter_ne, lookup_insert_ne by done.
      by rewrite (Hfr3 f0 Hf0), Hst. }
    assert (H1 : frame_at σ5 (BaseConcatDataset._description c1) = st T0).
    { unfold frame_at, σ5. simpl.
      rewrite lookup_alter_eq, lookup_insert_eq. simpl. by rewrite HT1. }
    exists (Ok (st T0)), σ5. by rewrite H0, H1.
  - subst r0. by eexists _, _.
Qed.

Lemma split_roundtrip_description_witness :
  [DBase ds_a; DBase ds_d] ≠ []
  ∧ ∃ t σ',
      split_roundtrip [DBase ds_a; DBase ds_d] store0 = (Ok (t, t), σ')
      ∧ (fr_columns <$> t)
        = Ok ({["subject"; "sfreq"; "n_channels"; "n_times"]} : gset string).
Proof.
  assert (Hne : [DBase ds_a; DBase ds_d] ≠ []) by discriminate.
  split; [exact Hne|].
  destruct (split_roundtrip_description [DBase ds_a; DBase ds_d] store0 Hne)
    as (t & σ' & Hrun).
  exists t, σ'. split; [exact Hrun|].
  assert (Hcols :
    match (split_roundtrip [DBase ds_a; DBase ds_d] store0).1 with
    | Ok (t, _) => fr_columns <$> t
    | Raise e => Raise e
    end = Ok ({["subject"; "sfreq"; "n_channels"; "n_times"]} : gset string))
    by (vm_compute; reflexivity).
  rewrite Hrun in Hcols. exact Hcols.
Defined.

(** ** Descriptions of the wrong type *)

(** X1.  A description that is not a Series makes both constructors raise
    [TypeError], whatever the other arguments: no dataset is built and the
    store is left as it was (in particular no row is refreshed). *)
Theorem init_rejects_non_series (desc : pyref) (σ : store) :
  (∀ l, desc ≠ RSeries l) →
  (∀ raw target_name,
     BaseDataset.__init__ raw desc target_name σ
     = (Raise (TypeError
                 "description must be a pandas Series, got {type(desc)}."), σ))
  ∧ (∀ windows,
       WindowsDataset.__init__ windows desc σ
       = (Raise (TypeError
                   "description must be a pandas Series, got {type(desc)}."), σ)).
Proof.
  intros Hns. split.
  - intros raw target_name. unfold BaseDataset.__init__.
    destruct desc as [l| |]; [by destruct (Hns l)| |];
      by destruct target_name.
  - intros windows. unfold WindowsDataset.__init__.
    by destruct desc as [l| |]; [destruct (Hns l)| |].
Qed.

Lemma init_rejects_non_series_witness :
  (BaseDataset.__init__ raw_a (RDataFrame 0%nat) (Some "subject") store0).1
  = Raise (TypeError "description must be a pandas Series, got {type(desc)}.").
Proof.
  by rewrite (proj1 (init_rejects_non_series (RDataFrame 0%nat) store0
                       (λ l, ltac:(discriminate))) raw_a (Some "subject")).
Defined.

(** ** Missing metadata fields *)

(** X2.  [WindowsDataset.__getitem__] on an index at which the data and the
    metadata row exist: if the row has no ['target'] the call raises
    [KeyError('target')]; if it has one but lacks some of the three
    positional fields, the lookup of the three raises one [KeyError] that
    names every missing field, in the order of [md_keys]. *)
Theorem WindowsDataset_getitem_missing_field (w : WindowsDataset.t) (i : Z)
    (xs : list array) (x : array) (md : row) :
  ep_get_data (WindowsDataset.windows w) i = Ok xs →
  py_index xs 0 = Ok x →
  py_index (ep_metadata (WindowsDataset.windows w)) i = Ok md →
  (md !! "target" = None →
     WindowsDataset.__getitem__ w i = Raise (KeyError (PyStr "target")))
  ∧ (∀ (k : string) (missing : list string),
       is_Some (md !! "target") →
       k ∈ WindowsDataset.md_keys →
       md !! k = None →
       missing = filter (λ k', md !! k' = None) WindowsDataset.md_keys →
       k ∈ missing
       ∧ WindowsDataset.__getitem__ w i = Raise (KeyErrorLabels missing)).
Proof.
  intros Hxs Hx Hmd.
  assert (Hget : WindowsDataset.__getitem__ w i
                 = (row_getitem md "target" ≫= λ y,
                    row_getitems md WindowsDataset.md_keys ≫= λ ind,
                    mret (WindowItem x y ind))).
  { unfold WindowsDataset.__getitem__.
    rewrite Hxs. cbn [mbind result_bind]. rewrite Hx. cbn [mbind result_bind].
    by rewrite Hmd. }
  rewrite Hget. split.
  - intros Ht.
    assert (row_getitem md "target" = Raise (KeyError (PyStr "target"))) as ->
      by (unfold row_getitem; by rewrite Ht).
    done.
  - intros k missing [y Hy] Hin Hk ->.
    assert (Hkm : k ∈ filter (λ k', md !! k' = None) WindowsDataset.md_keys)
      by (by apply list_elem_of_filter).
    split; [exact Hkm|].
    assert (row_getitem md "target" = Ok y) as ->
      by (unfold row_getitem; by rewrite Hy).
    cbn [mbind result_bind]. unfold row_getitems.
    rewrite decide_False; [done|].
    intros Hnil. rewrite Hnil in Hkm. by apply elem_of_nil in Hkm.
Qed.

Lemma WindowsDataset_getitem_missing_field_witness :
  WindowsDataset.__getitem__ win_c 0
  = Raise (KeyErrorLabels
             ["i_supercrop_in_trial"; "i_start_in_trial"; "i_stop_in_trial"]).
Proof.
  refine (proj2 (proj2 (WindowsDataset_getitem_missing_field win_c 0
                          [[[hz 1]]] [[hz 1]] {["target" := PyInt 0]}
                          eq_refl eq_refl eq_refl)
                   "i_start_in_trial" _ _ _ eq_refl eq_refl)).
  - by eexists.
  - unfold WindowsDataset.md_keys. set_solver.
Defined.

(** ** Negative indices into a concatenation *)

Lemma BaseConcatDataset_init_Ok children σ c σ' :
  BaseConcatDataset.__init__ children σ = (Ok c, σ') →
  children ≠ [] ∧ c = init_value children σ ∧ σ' = init_store children σ.
Proof.
  destruct children as [|ds dss].
  - by rewrite BaseConcatDataset_init_empty.
  - rewrite BaseConcatDataset_init_run by done. by intros [= <- <-].
Qed.

(** X3.  Indexing a concatenation from the end: [c[-k]] for [k] between 1
    and the length is [c[len(c) - k]]; for [k] beyond the length the call
    raises [ValueError], it does not wrap around. *)
Theorem concat_getitem_negative (children : list dataset) (σ σ' : store)
    (c : BaseConcatDataset.t) :
  BaseConcatDataset.__init__ children σ = (Ok c, σ') →
  let total := Z.of_nat (sum_list (ds_len <$> children)) in
  (∀ k : Z, (1 ≤ k ≤ total)%Z →
     BaseConcatDataset.__getitem__ c (- k)
     = BaseConcatDataset.__getitem__ c (total - k))
  ∧ (∀ k : Z, (total < k)%Z →
       BaseConcatDataset.__getitem__ c (- k)
       = Raise (ValueError
                  "absolute value of index should not exceed dataset length")).
Proof.
  intros Hinit total. apply BaseConcatDataset_init_Ok in Hinit as (Hne & -> & _).
  unfold BaseConcatDataset.__getitem__, init_value. cbn [BaseConcatDataset.super].
  pose proof (ConcatDataset_len children Hne) as Hlen. fold total in Hlen.
  split.
  - intros k Hk. unfold ConcatDataset.__getitem__.
    rewrite (decide_True (P := (- k < 0)%Z)) by lia.
    rewrite (decide_False (P := (total - k < 0)%Z)) by lia.
    rewrite Hlen. cbn [mbind result_bind].
    rewrite (decide_False (P := (- - k > total)%Z)) by lia.
    by rewrite Z.add_opp_r.
  - intros k Hk. unfold ConcatDataset.__getitem__.
    rewrite (decide_True (P := (- k < 0)%Z)) by lia.
    rewrite Hlen. cbn [mbind result_bind].
    by rewrite (decide_True (P := (- - k > total)%Z)) by lia.
Qed.

Lemma concat_getitem_negative_witness :
  ∃ c σ',
    BaseConcatDataset.__init__ [DBase ds_a; DBase ds_b] store0 = (Ok c, σ')
    ∧ BaseConcatDataset.__getitem__ c (- 1) = BaseConcatDataset.__getitem__ c 4
    ∧ BaseConcatDataset.__getitem__ c (- 6)
      = Raise (ValueError
                 "absolute value of index should not exceed dataset length").
Proof.
  assert (Hne : [DBase ds_a; DBase ds_b] ≠ []) by discriminate.
  eexists _, _. split; [by apply BaseConcatDataset_init_run|].
  pose proof (concat_getitem_negative [DBase ds_a; DBase ds_b] store0 _ _
                (BaseConcatDataset_init_run _ store0 Hne))
    as [Hin Hout].
  split.
  - apply (Hin 1). simpl. lia.
  - apply (Hout 6). simpl. lia.
Defined.

(** ** What construction of a concatenation does *)

Lemma refresh_series_dom dss : ∀ s, dom (refresh_series dss s) = dom s.
Proof.
  induction dss as [|ds dss IH]; intros s; [done|].
  change (refresh_series (ds :: dss) s)
    with (refresh_series dss (ds_refresh_series s ds)).
  rewrite IH. unfold ds_refresh_series. apply dom_alter_L.
Qed.

(** X4.  [BaseConcatDataset(list_of_ds)] raises [AssertionError] on the empty
    list, without touching the store.  When construction returns, the list
    was not empty, the new object holds the children as given, its
    description is a table that the call has allocated, with one row per
    child; every table that existed is as it was, and no description row
    has been created or removed. *)
Theorem BaseConcatDataset_init_effects (children : list dataset) (σ : store) :
  (children = [] →
   BaseConcatDataset.__init__ children σ
   = (Raise (AssertionError "datasets should not be an empty iterable"), σ))
  ∧ (∀ c σ',
       BaseConcatDataset.__init__ children σ = (Ok c, σ') →
       children ≠ []
       ∧ BaseConcatDataset.datasets c = children
       ∧ (BaseConcatDataset._description c ∉ dom (frames σ))
       ∧ (∃ T, frames σ' !! BaseConcatDataset._description c = Some T
               ∧ length (fr_rows T) = length children)
       ∧ (∀ l, l ∈ dom (frames σ) → frames σ' !! l = frames σ !! l)
       ∧ dom (series σ') = dom (series σ)).
Proof.
  split.
  - intros ->. apply BaseConcatDataset_init_empty.
  - intros c σ' Hinit.
    apply BaseConcatDataset_init_Ok in Hinit as (Hne & -> & ->).
    split; [done|]. split; [done|].
    split; [apply init_value_fresh|]. split; [|split].
    + eexists. split; [apply lookup_insert_eq|].
      unfold frame_of_rows, rows_of. simpl. by rewrite !length_fmap.
    + intros l Hl. unfold init_store. simpl. apply lookup_insert_ne.
      intros Heq. rewrite <-Heq in Hl. by apply is_fresh in Hl.
    + unfold init_store. simpl. apply refresh_series_dom.
Qed.

Lemma BaseConcatDataset_init_effects_witness :
  ∃ c σ',
    BaseConcatDataset.__init__ [DBase ds_a; DWindows win_b] store0 = (Ok c, σ')
    ∧ BaseConcatDataset.datasets c = [DBase ds_a; DWindows win_b]
    ∧ dom (series σ') = dom (series store0).
Proof.
  assert (Hne : [DBase ds_a; DWindows win_b] ≠ []) by discriminate.
  pose proof (BaseConcatDataset_init_run _ store0 Hne) as Hrun.
  destruct (proj2 (BaseConcatDataset_init_effects
                     [DBase ds_a; DWindows win_b] store0) _ _ Hrun)
    as (_ & Hds & _ & _ & _ & Hdom).
  eexists _, _. split; [exact Hrun|]. by split.
Defined.

(** The last child of a list that holds the row at [l]. *)
Lemma last_write_spec dss l :
  match last_write dss l with
  | Some w =>
      ∃ (j : nat) ds,
        dss !! j = Some ds ∧ ds_loc ds = l ∧ w = ds_values ds
        ∧ ∀ (j' : nat) ds', (j < j')%nat → dss !! j' = Some ds' → ds_loc ds' ≠ l
  | None => ∀ ds, ds ∈ dss → ds_loc ds ≠ l
  end.
Proof.
  induction dss as [|d dss IH] using rev_ind.
  - simpl. intros ds Hds. by apply elem_of_nil in Hds.
  - rewrite last_write_snoc. case_decide as Hd.
    + exists (length dss), d. split; [|split; [done|split; [done|]]].
      * by rewrite lookup_app_r, Nat.sub_diag.
      * intros j' ds' Hj' Hds'. apply lookup_lt_Some in Hds'.
        rewrite length_app in Hds'. simpl in Hds'. lia.
    + destruct (last_write dss l) as [w|].
      * destruct IH as (j & ds & Hj & Hl & Hw & Hlast).
        exists j, ds. split; [|split; [done|split; [done|]]].
        -- by apply lookup_app_l_Some.
        -- intros j' ds' Hj' Hds'.
           destruct (decide (j' < length dss)%nat) as [Hlt|Hge].
           ++ rewrite lookup_app_l in Hds' by done. by eapply Hlast.
           ++ rewrite lookup_app_r in Hds' by lia.
              destruct (j' - length dss)%nat; [|done].
              by injection Hds' as <-.
      * intros ds Hds. apply elem_of_app in Hds as [Hds|Hds]; [by apply IH|].
        apply list_elem_of_singleton in Hds. by subst.
Qed.

(** X5.  The rows of the table that construction has built are copied
    after the getters of all the children have run.  In the row of child
    [i], ['sfreq'] and ['n_channels'] are the values of the last child of
    the list that holds the same Series: the child's own values when it
    shares its row with no later child.  The columns of the table include
    the labels of the child's row and these two. *)
Theorem init_table_rows (children : list dataset) (σ σ' : store)
    (c : BaseConcatDataset.t) (i : nat) (ds : dataset) (r : row) :
  BaseConcatDataset.__init__ children σ = (Ok c, σ') →
  children !! i = Some ds →
  series σ !! ds_loc ds = Some r →
  ∃ T (j : nat) ds' (row_i : row),
    frames σ' !! BaseConcatDataset._description c = Some T
    ∧ children !! j = Some ds' ∧ ds_loc ds' = ds_loc ds
    ∧ (∀ (j' : nat) ds'', (j < j')%nat → children !! j' = Some ds'' →
         ds_loc ds'' ≠ ds_loc ds)
    ∧ fr_rows T !! i = Some row_i
    ∧ row_i !! "sfreq" = Some (PyNum (ds_values ds').1)
    ∧ row_i !! "n_channels" = Some (PyInt (Z.of_nat (ds_values ds').2))
    ∧ (∀ k, k ∈ dom r ∨ k = "sfreq" ∨ k = "n_channels" → k ∈ fr_columns T).
Proof.
  intros Hinit Hi Hr.
  apply BaseConcatDataset_init_Ok in Hinit as (Hne & -> & ->).
  pose proof (last_write_spec children (ds_loc ds)) as Hlast.
  destruct (last_write children (ds_loc ds)) as [w|] eqn:Hw.
  2:{ exfalso. apply (Hlast ds); [|done]. by eapply list_elem_of_lookup_2. }
  destruct Hlast as (j & ds' & Hj & Hloc & -> & Hafter).
  assert (Hrow : series_at (refresh_all children σ) (ds_loc ds)
                 = refresh (ds_values ds').1 (ds_values ds').2 r).
  { unfold series_at, refresh_all. simpl.
    by rewrite refresh_series_lookup, Hw, Hr. }
  eexists _, j, ds', _. split; [apply lookup_insert_eq|].
  split; [done|]. split; [done|]. split; [done|]. split; [|split; [|split]].
  - unfold frame_of_rows, rows_of. cbn [fr_rows].
    rewrite !list_lookup_fmap, Hi. cbn [fmap option_fmap option_map].
    by rewrite Hrow.
  - apply refresh_lookup_sfreq.
  - apply refresh_lookup_n_channels.
  - intros k Hk. unfold frame_of_rows. cbn [fr_columns].
    apply elem_of_union_list.
    exists (dom (refresh (ds_values ds').1 (ds_values ds').2 r)). split.
    + apply list_elem_of_fmap. eexists. split; [done|].
      rewrite <-Hrow. unfold rows_of.
      apply list_elem_of_fmap. exists (ds_loc ds). split; [done|].
      apply list_elem_of_fmap. exists ds. split; [done|].
      by eapply list_elem_of_lookup_2.
    + rewrite refresh_dom.
      destruct Hk as [Hk|[->| ->]].
      * by apply elem_of_union_r.
      * apply elem_of_union_l, elem_of_union_r. by apply elem_of_singleton.
      * apply elem_of_union_l, elem_of_union_l. by apply elem_of_singleton.
Qed.

Lemma init_table_rows_witness :
  ∃ T (row_1 : row),
    frames (init_store [DBase ds_a; DBase ds_b] store0)
      !! BaseConcatDataset._description (init_value [DBase ds_a; DBase ds_b] store0)
    = Some T
    ∧ fr_rows T !! 1%nat = Some row_1
    ∧ row_1 !! "sfreq" = Some (PyNum (hz 250))
    ∧ row_1 !! "n_channels" = Some (PyInt 1).
Proof.
  assert (Hne : [DBase ds_a; DBase ds_b] ≠ []) by discriminate.
  destruct (init_table_rows [DBase ds_a; DBase ds_b] store0 _ _ 1 (DBase ds_b)
              {["subject" := PyInt 2]}
              (BaseConcatDataset_init_run _ store0 Hne) eq_refl eq_refl)
    as (T & j & ds' & row_1 & HT & Hj & Hloc & Hlast & Hrow & Hsf & Hnc & _).
  exists T, row_1. split; [exact HT|]. split; [exact Hrow|].
  destruct j as [|[|j]]; [|injection Hj as <-; by split|done].
  injection Hj as <-. done.
Defined.

(** ** A successful read of the aggregate description *)

Lemma len_set_le_1 `{EqDecision A} (x : A) (l : list A) :
  (len_set (x :: l) ≤ 1)%nat → Forall (λ y, y = x) (x :: l).
Proof.
  unfold len_set. intros Hlen. apply Forall_forall. intros y Hy.
  apply elem_of_remove_dups in Hy.
  assert (Hx : x ∈ remove_dups (x :: l)) by (apply elem_of_remove_dups; by left).
  destruct (remove_dups (x :: l)) as [|a [|b rest]].
  - by apply elem_of_nil in Hx.
  - apply list_elem_of_singleton in Hx, Hy. congruence.
  - simpl in Hlen. lia.
Qed.

Lemma len_set_fmap_le_1 {A} `{EqDecision B} (f : A → B) (d : A) (dss : list A) :
  ¬ (1 < len_set (f <$> d :: dss))%nat → Forall (λ x, f x = f d) (d :: dss).
Proof.
  intros H. rewrite fmap_cons in H. apply Nat.nlt_ge, len_set_le_1 in H.
  apply Forall_cons in H as [_ H]. constructor; [done|].
  by apply Forall_fmap in H.
Qed.

Lemma stamp_rows sf nc nt T :
  fr_rows (stamp sf nc nt T)
  = (λ r, <["n_times" := PyInt (Z.of_nat nt)]>
            (<["n_channels" := PyInt (Z.of_nat nc)]>
               (<["sfreq" := PyNum sf]> r))) <$> fr_rows T.
Proof.
  unfold stamp, frame_set_column. cbn [fr_rows].
  by rewrite <-!list_fmap_compose.
Qed.

Lemma stamp_columns sf nc nt T :
  fr_columns (stamp sf nc nt T)
  = {["n_times"; "n_channels"; "sfreq"]} ∪ fr_columns T.
Proof.
  unfold stamp, frame_set_column. cbn [fr_columns].
  by rewrite !(assoc_L (∪)).
Qed.

Lemma stamp_index sf nc nt T : fr_index (stamp sf nc nt T) = fr_index T.
Proof. reflexivity. Qed.

Lemma stamp_stamp sf nc nt T :
  stamp sf nc nt (stamp sf nc nt T) = stamp sf nc nt T.
Proof.
  destruct (stamp sf nc nt (stamp sf nc nt T)) as [idx cols rows] eqn:H2.
  destruct (stamp sf nc nt T) as [idx1 cols1 rows1] eqn:H1.
  pose proof (f_equal fr_columns H2) as Hc2. pose proof (f_equal fr_rows H2) as Hr2.
  pose proof (f_equal fr_columns H1) as Hc1. pose proof (f_equal fr_rows H1) as Hr1.
  pose proof (f_equal fr_index H2) as Hi2. pose proof (f_equal fr_index H1) as Hi1.
  rewrite stamp_columns in Hc1, Hc2. rewrite stamp_rows in Hr1, Hr2.
  rewrite stamp_index in Hi1, Hi2.
  simpl in *. subst. f_equal.
  - apply set_eq. intros k. rewrite !elem_of_union. tauto.
  - rewrite <-list_fmap_compose. apply list_fmap_ext. intros _ r _. simpl.
    apply map_eq. intros k. rewrite !lookup_insert. by repeat case_decide.
Qed.

(** X6.  When a read of the aggregate description returns, it returns the
    stored reference; the children are then all of one kind and agree on
    sampling rate, number of channels and number of time points; the table
    has been changed in place so that every row carries these three values
    under ['sfreq'], ['n_channels'] and ['n_times'] and is otherwise as
    before; and a second read returns the same reference and changes
    nothing. *)
Theorem description_read_success (c : BaseConcatDataset.t) (σ σ' : store)
    (l : loc) (T : frame) :
  BaseConcatDataset.description c σ = (Ok l, σ') →
  frames σ !! BaseConcatDataset._description c = Some T →
  l = BaseConcatDataset._description c
  ∧ homogeneous (BaseConcatDataset.datasets c)
  ∧ ∃ sf nc nt,
      Forall (λ ds, info_sfreq (ds_backend ds) = sf
                    ∧ length (ch_names (ds_backend ds)) = nc
                    ∧ length (times (ds_backend ds)) = nt)
        (BaseConcatDataset.datasets c)
      ∧ BaseConcatDataset.datasets c ≠ []
      ∧ σ' = Store (series σ) (<[l := stamp sf nc nt T]> (frames σ))
      ∧ fr_columns (stamp sf nc nt T)
        = {["n_times"; "n_channels"; "sfreq"]} ∪ fr_columns T
      ∧ (∀ (i : nat) r, fr_rows T !! i = Some r →
           ∃ r', fr_rows (stamp sf nc nt T) !! i = Some r'
                 ∧ r' !! "sfreq" = Some (PyNum sf)
                 ∧ r' !! "n_channels" = Some (PyInt (Z.of_nat nc))
                 ∧ r' !! "n_times" = Some (PyInt (Z.of_nat nt))
                 ∧ ∀ k, k ≠ "sfreq" → k ≠ "n_channels" → k ≠ "n_times" →
                        r' !! k = r !! k)
      ∧ BaseConcatDataset.description c σ' = (Ok l, σ').
Proof.
  intros Hrun HT. rewrite BaseConcatDataset_description_outcome in Hrun.
  pose proof (BaseConcatDataset_description_outcome c) as Hagain.
  unfold description_outcome in Hrun, Hagain.
  destruct (decide (homogeneous (BaseConcatDataset.datasets c))) as [Hhom|];
    [|done].
  destruct (decide (1 < len_set (sfreqs (BaseConcatDataset.datasets c)))%nat)
    as [|Hf]; [done|].
  destruct (decide (1 < len_set (channel_counts (BaseConcatDataset.datasets c)))%nat)
    as [|Hc]; [done|].
  destruct (decide (1 < len_set (time_counts (BaseConcatDataset.datasets c)))%nat)
    as [|Ht]; [done|].
  destruct (BaseConcatDataset.datasets c) as [|ds dss] eqn:Hds; [done|].
  injection Hrun as <- <-.
  split; [done|]. split; [done|].
  exists (info_sfreq (ds_backend ds)), (length (ch_names (ds_backend ds))),
    (length (times (ds_backend ds))).
  split; [|split; [done|split; [|split; [|split]]]].
  - unfold sfreqs, channel_counts, time_counts in Hf, Hc, Ht.
    apply len_set_fmap_le_1 in Hf, Hc, Ht.
    apply Forall_forall. intros d Hd.
    eapply Forall_forall in Hf, Hc, Ht; [|exact Hd..]. done.
  - by rewrite (alter_alt_Some _ _ _ _ HT).
  - apply stamp_columns.
  - intros i r Hi.
    exists (<["n_times" := PyInt (Z.of_nat (length (times (ds_backend ds))))]>
              (<["n_channels" :=
                   PyInt (Z.of_nat (length (ch_names (ds_backend ds))))]>
                 (<["sfreq" := PyNum (info_sfreq (ds_backend ds))]> r))).
    split.
    + by rewrite stamp_rows, list_lookup_fmap, Hi.
    + split.
      { rewrite lookup_insert_ne by done. rewrite lookup_insert_ne by done.
        apply lookup_insert_eq. }
      split; [rewrite lookup_insert_ne by done; apply lookup_insert_eq|].
      split; [apply lookup_insert_eq|].
      intros k H1 H2 H3. by rewrite !lookup_insert_ne by done.
  - rewrite Hagain. simpl. f_equal. f_equal.
    rewrite alter_alter_eq. rewrite (alter_alt_Some _ _ _ _ HT).
    rewrite (alter_alt_Some _ _ _ _ HT). unfold compose. by rewrite stamp_stamp.
Qed.

Lemma description_read_success_witness :
  ∃ l σ' T,
    BaseConcatDataset.description concat_ad store_ad = (Ok l, σ')
    ∧ frames store_ad !! BaseConcatDataset._description concat_ad = Some T
    ∧ BaseConcatDataset.description concat_ad σ' = (Ok l, σ').
Proof.
  assert (Hrun : ∃ l σ',
            BaseConcatDataset.description concat_ad store_ad = (Ok l, σ')).
  { rewrite BaseConcatDataset_description_outcome.
    assert (is_ok (description_outcome (BaseConcatDataset.datasets concat_ad))
            = true) as Hok by (vm_compute; reflexivity).
    destruct (description_outcome _); [by eexists _, _|done]. }
  destruct Hrun as (l & σ' & Hrun).
  assert (HT : ∃ T, frames store_ad !! BaseConcatDataset._description concat_ad
                    = Some T) by (eexists; apply lookup_insert_eq).
  destruct HT as [T HT].
  destruct (description_read_success concat_ad store_ad σ' l T Hrun HT)
    as (_ & _ & sf & nc & nt & _ & _ & _ & _ & _ & Hagain).
  by exists l, σ', T.
Defined.

(** X7.  A read of the aggregate description neither consults nor changes
    the description rows of the children: on two stores that hold the same
    tables it has the same outcome and leaves the same tables, whatever the
    rows are, and the rows are as before the read.  The table is not
    rebuilt from the children's rows. *)
Theorem description_ignores_rows (c : BaseConcatDataset.t) (σ : store)
    (rows' : gmap loc row) :
  let r := BaseConcatDataset.description c σ in
  let r' := BaseConcatDataset.description c (Store rows' (frames σ)) in
  r'.1 = r.1 ∧ frames r'.2 = frames r.2
  ∧ series r.2 = series σ ∧ series r'.2 = rows'.
Proof.
  intros r r'. subst r r'. rewrite !BaseConcatDataset_description_outcome.
  by destruct (description_outcome _).
Qed.

(** ** Failures of [split] *)

(** X8.  [split] by a property reads the description first.  If the read
    raises, [split] raises the same exception and the store is as before; if
    the read returns but the table has no column of that name, [split] raises
    [KeyError] for the property, the store being the one the read left.  In
    both cases no concatenation is built. *)
Theorem split_by_property_failures (c : BaseConcatDataset.t) (prop : string)
    (σ : store) :
  (∀ e σ', BaseConcatDataset.description c σ = (Raise e, σ') →
     BaseConcatDataset.split c (Some prop) None σ = (Raise e, σ))
  ∧ (∀ l σ1, BaseConcatDataset.description c σ = (Ok l, σ1) →
       prop ∉ fr_columns (frame_at σ1 l) →
       BaseConcatDataset.split c (Some prop) None σ
       = (Raise (KeyError (PyStr prop)), σ1)).
Proof.
  split.
  - intros e σ' Hrun.
    pose proof (BaseConcatDataset_description_Raise _ _ _ _ Hrun) as ->.
    unfold BaseConcatDataset.split.
    rewrite M_bind_run, (M_bind_run (BaseConcatDataset.description c)).
    by rewrite Hrun.
  - intros l σ1 Hrun Hcol. unfold BaseConcatDataset.split.
    rewrite M_bind_run, (M_bind_run (BaseConcatDataset.description c)).
    rewrite Hrun. unfold frame_read. simpl. rewrite M_bind_lift.
    unfold groupby_groups. by rewrite decide_False.
Qed.

Lemma split_by_property_failures_witness :
  BaseConcatDataset.split concat_ab (Some "subject") None store0
  = (Raise (ValueError "Recordings have different sampling rates."), store0).
Proof.
  apply (proj1 (split_by_property_failures concat_ab "subject" store0) _ store0).
  vm_compute. reflexivity.
Defined.

Lemma py_index_Ok_range {A} (l : list A) (i : Z) (a : A) :
  py_index l i = Ok a → (- Z.of_nat (length l) ≤ i < Z.of_nat (length l))%Z.
Proof.
  unfold py_index. destruct (decide (i < 0)%Z).
  - case_decide; [|done].
    destruct (l !! _) eqn:Hl; [|done]. apply lookup_lt_Some in Hl. lia.
  - case_decide; [|done].
    destruct (l !! _) eqn:Hl; [|done]. apply lookup_lt_Some in Hl. lia.
Qed.

Lemma py_index_Raise {A} (l : list A) (i : Z) (e : exn) :
  py_index l i = Raise e → e = IndexError.
Proof.
  unfold py_index. case_decide; [|by intros [= <-]].
  destruct (l !! _); [done|by intros [= <-]].
Qed.

Lemma select_Raise (dss : list dataset) (inds : list Z) (e : exn) :
  mapM (py_index dss) inds = Raise e →
  e = IndexError
  ∧ ¬ Forall (λ i, - Z.of_nat (length dss) ≤ i < Z.of_nat (length dss))%Z inds.
Proof.
  induction inds as [|i inds IH]; [done|]. cbn [mapM].
  destruct (py_index dss i) as [d|e'] eqn:Hi.
  - cbn [mbind result_bind].
    destruct (mapM (py_index dss) inds) as [ch|e'] eqn:Hch; [done|].
    cbn [mbind result_bind]. intros [= <-].
    destruct (IH eq_refl) as [-> Hn]. split; [done|].
    intros Hall. apply Hn. by apply Forall_cons in Hall as [_ ?].
  - cbn [mbind result_bind]. intros [= <-].
    apply py_index_Raise in Hi as Hi'. split; [done|].
    intros Hall. apply Forall_cons in Hall as [Hr _].
    apply py_index_in_range in Hr. by rewrite Hi in Hr.
Qed.

(** One step of the comprehension. *)
Lemma split_part_run (self : BaseConcatDataset.t) (name : pyval)
    (inds : list Z) σ :
  (lift (mapM (py_index (BaseConcatDataset.datasets self)) inds) ≫= λ children,
   BaseConcatDataset.__init__ children ≫= λ c, mret (name, c)) σ
  = match mapM (py_index (BaseConcatDataset.datasets self)) inds with
    | Ok [] =>
        (Raise (AssertionError "datasets should not be an empty iterable"), σ)
    | Ok children =>
        (Ok (name, init_value children σ), init_store children σ)
    | Raise e => (Raise e, σ)
    end.
Proof.
  rewrite M_bind_lift.
  destruct (mapM _ inds) as [[|d children]|e]; [| |done].
  - by rewrite M_bind_run, BaseConcatDataset_init_empty.
  - by rewrite (M_bind_Ok _ _ _ _ _
                  (BaseConcatDataset_init_run (d :: children) σ ltac:(done))).
Qed.

(** The comprehension either builds every part, all groups being valid, or
    raises at the first group that is not. *)
Lemma split_parts_outcome (self : BaseConcatDataset.t)
    (split_ids : list (pyval * list Z)) : ∀ σ,
  match (mapM (λ '(split_name, ds_inds),
                 children ← lift (mapM (py_index (BaseConcatDataset.datasets self))
                                    ds_inds);
                 c ← BaseConcatDataset.__init__ children;
                 mret (split_name, c)) split_ids σ).1 with
  | Ok _ =>
      Forall (λ si, valid_group (length (BaseConcatDataset.datasets self)) si.2)
        split_ids
  | Raise e =>
      ¬ Forall (λ si, valid_group (length (BaseConcatDataset.datasets self)) si.2)
          split_ids
      ∧ (e = IndexError
         ∨ e = AssertionError "datasets should not be an empty iterable")
  end.
Proof.
  induction split_ids as [|[name inds] split_ids IH]; intros σ.
  - simpl. constructor.
  - cbn [mapM]. rewrite M_bind_run, split_part_run.
    destruct (mapM (py_index (BaseConcatDataset.datasets self)) inds)
      as [children|e] eqn:Hsel.
    + apply mapM_result_Forall2 in Hsel.
      destruct children as [|d children].
      * simpl. split; [|by right].
        apply Forall2_nil_inv_r in Hsel as ->.
        intros Hall. apply Forall_cons in Hall as [[Hne _] _]. done.
      * rewrite M_bind_run.
        specialize (IH (init_store (d :: children) σ)).
        assert (Hvalid : valid_group (length (BaseConcatDataset.datasets self))
                           inds).
        { split.
          - intros ->. by apply Forall2_nil_inv_l in Hsel.
          - apply Forall_forall. intros i Hi.
            apply list_elem_of_lookup_1 in Hi as [k Hk].
            destruct (Forall2_lookup_l _ _ _ _ _ Hsel Hk) as (d' & _ & Hd').
            by eapply py_index_Ok_range. }
        match type of IH with
        | match (?x).1 with _ => _ end => destruct x as [[parts|e] σ2]
        end; simpl in *.
        -- by constructor.
        -- destruct IH as [Hn He]. split; [|done].
           intros Hall. apply Hn. by apply Forall_cons in Hall as [_ ?].
    + simpl. apply select_Raise in Hsel as [-> Hn]. split; [|by left].
      intros Hall. apply Forall_cons in Hall as [[_ Hr] _]. done.
Qed.

Lemma split_build_outcome (self : BaseConcatDataset.t)
    (split_ids : list (pyval * list Z)) σ :
  match (BaseConcatDataset.split_build self split_ids σ).1 with
  | Ok _ =>
      Forall (λ si, valid_group (length (BaseConcatDataset.datasets self)) si.2)
        split_ids
  | Raise e =>
      ¬ Forall (λ si, valid_group (length (BaseConcatDataset.datasets self)) si.2)
          split_ids
      ∧ (e = IndexError
         ∨ e = AssertionError "datasets should not be an empty iterable")
  end.
Proof.
  pose proof (split_parts_outcome self split_ids σ) as H.
  unfold BaseConcatDataset.split_build. rewrite M_bind_run.
  match type of H with
  | match (?x).1 with _ => _ end => by destruct x as [[parts|e] σ2]
  end.
Qed.

Lemma Forall_enumerate_iff {A} (P : A → Prop) (xs : list A) :
  Forall (λ si, P si.2) (enumerate xs) ↔ Forall P xs.
Proof.
  split; [|apply Forall_enumerate].
  intros H. apply Forall_lookup. intros k x Hk.
  apply (Forall_lookup_1 _ _ k (PyInt (Z.of_nat k), x)) in H; [done|].
  by rewrite enumerate_lookup, Hk.
Qed.

(** X9.  A [split] by index groups that returns had only groups that are
    non-empty and made of indices in the range of the children (from [-n] to
    [n - 1]); with a group that is empty or holds an index out of this range
    the call raises, whatever the other groups are. *)
Theorem split_by_index_outcome (c : BaseConcatDataset.t)
    (prop : option string) (ids : list (list Z)) (σ : store) :
  let n := length (BaseConcatDataset.datasets c) in
  let r := (BaseConcatDataset.split c prop (Some ids) σ).1 in
  (is_ok r = true → Forall (valid_group n) ids)
  ∧ (∀ g, g ∈ ids → ¬ valid_group n g → is_ok r = false).
Proof.
  intros n r.
  assert (Hsplit : BaseConcatDataset.split c prop (Some ids) σ
                   = BaseConcatDataset.split_build c (enumerate ids) σ)
    by (by destruct prop).
  pose proof (split_build_outcome c (enumerate ids) σ) as Hout.
  subst r. rewrite Hsplit.
  destruct (BaseConcatDataset.split_build c (enumerate ids) σ).1 as [m|e].
  - apply (proj1 (Forall_enumerate_iff (valid_group n) ids)) in Hout.
    split; [done|]. intros g Hg Hn. destruct Hn.
    by apply (proj1 (Forall_forall _ _) Hout).
  - split; [done|]. done.
Qed.

Lemma split_by_index_outcome_witness :
  is_ok (BaseConcatDataset.split concat_abc None (Some [[0]; [5]]) store0).1
  = false
  ∧ is_ok (BaseConcatDataset.split concat_abc None (Some [[0]; []]) store0).1
    = false.
Proof.
  split.
  - apply (proj2 (split_by_index_outcome concat_abc None [[0]; [5]] store0)
             [5]); [set_solver|].
    intros [_ Hr]. apply Forall_cons in Hr as [Hr _]. simpl in Hr. lia.
  - apply (proj2 (split_by_index_outcome concat_abc None [[0]; []] store0)
             []); [set_solver|].
    by intros [Hne _].
Defined.

(** ** What [split] by index does to the store *)

Lemma dict_fold_lookup_Some {V} (items : list (pyval * V)) :
  ∀ (m : gmap pyval V) (key : pyval) (v : V),
    foldl (λ m kv, <[kv.1 := kv.2]> m) m items !! key = Some v →
    (key, v) ∈ items ∨ m !! key = Some v.
Proof.
  induction items as [|[k0 v0] items IH]; intros m key v Hl; [by right|].
  simpl in Hl. apply IH in Hl as [Hin|Hl]; [left; by right|].
  rewrite lookup_insert in Hl. case_decide as Hk.
  - injection Hl as <-. subst. left. by left.
  - by right.
Qed.

Lemma parts_of_tables groups : ∀ σ p,
  p ∈ parts_of groups σ →
  ∃ T, frames (store_after groups σ) !! BaseConcatDataset._description p.2
       = Some T
       ∧ length (fr_rows T) = length (BaseConcatDataset.datasets p.2).
Proof.
  induction groups as [|g groups IH]; intros σ p Hp.
  { by apply elem_of_nil in Hp. }
  change (store_after (g :: groups) σ)
    with (store_after groups (init_store g.2 σ)).
  cbn [parts_of] in Hp. apply elem_of_cons in Hp as [->|Hp]; [|by apply IH].
  assert (Hat : frames (init_store g.2 σ) !! fresh (dom (frames σ))
                = Some (frame_of_rows (rows_of g.2 (refresh_all g.2 σ))))
    by apply lookup_insert_eq.
  exists (frame_of_rows (rows_of g.2 (refresh_all g.2 σ))). split.
  - simpl. rewrite store_after_frames; [done|]. apply elem_of_dom. by eexists.
  - unfold frame_of_rows, rows_of. simpl. by rewrite !length_fmap.
Qed.

Lemma selects_members dss split_ids groups ds :
  Forall2 (selects dss) split_ids groups →
  ds ∈ mjoin groups.*2 →
  ∃ si i, si ∈ split_ids ∧ i ∈ si.2 ∧ py_index dss i = Ok ds.
Proof.
  intros Hsel Hds. apply list_elem_of_join in Hds as (ch & Hds & Hch).
  apply list_elem_of_fmap in Hch as (g & -> & Hg).
  apply list_elem_of_lookup_1 in Hg as [k Hk].
  destruct (Forall2_lookup_r _ _ _ _ _ Hsel Hk) as (si & Hsi & _ & Hch & _).
  apply list_elem_of_lookup_1 in Hds as [j Hj].
  destruct (Forall2_lookup_r _ _ _ _ _ Hch Hj) as (i & Hi & Hpy).
  exists si, i. split; [by eapply list_elem_of_lookup_2|].
  split; [by eapply list_elem_of_lookup_2|done].
Qed.

(** X10.  A [split] by index groups that returns leaves every table that
    existed as it was (the description of the concatenation it is called on
    included) and creates or removes no description row; the only rows it
    writes to are those of the selected children, through their getters.
    Each concatenation in the result has, in the store left by the call, a
    table of its own with one row per child. *)
Theorem split_by_index_store (c : BaseConcatDataset.t) (prop : option string)
    (ids : list (list Z)) (σ σ' : store) (m : gmap pyval BaseConcatDataset.t) :
  BaseConcatDataset.split c prop (Some ids) σ = (Ok m, σ') →
  (∀ l, l ∈ dom (frames σ) → frames σ' !! l = frames σ !! l)
  ∧ dom (series σ') = dom (series σ)
  ∧ (∀ l,
       (∀ g i d, g ∈ ids → i ∈ g →
          py_index (BaseConcatDataset.datasets c) i = Ok d → ds_loc d ≠ l) →
       series σ' !! l = series σ !! l)
  ∧ (∀ v ck, m !! v = Some ck →
       (BaseConcatDataset._description ck ∉ dom (frames σ))
       ∧ ∃ T, frames σ' !! BaseConcatDataset._description ck = Some T
              ∧ length (fr_rows T) = length (BaseConcatDataset.datasets ck)).
Proof.
  intros Hrun.
  assert (Hsplit : BaseConcatDataset.split c prop (Some ids) σ
                   = BaseConcatDataset.split_build c (enumerate ids) σ)
    by (by destruct prop).
  rewrite Hsplit in Hrun.
  pose proof (split_build_outcome c (enumerate ids) σ) as Hvalid.
  rewrite Hrun in Hvalid. simpl in Hvalid.
  destruct (selects_exist (BaseConcatDataset.datasets c) (enumerate ids))
    as [groups Hsel].
  { eapply Forall_impl; [exact Hvalid|]. by intros si [? ?]. }
  rewrite (split_build_run c _ groups σ Hsel) in Hrun.
  injection Hrun as <- <-.
  split; [|split; [|split]].
  - intros l Hl. by apply store_after_frames.
  - rewrite store_after_series. apply refresh_series_dom.
  - intros l Hl. rewrite store_after_series, refresh_series_lookup.
    pose proof (last_write_spec (mjoin groups.*2) l) as Hlast.
    destruct (last_write (mjoin groups.*2) l) as [w|].
    + destruct Hlast as (j & ds & Hj & Hloc & _).
      apply list_elem_of_lookup_2 in Hj.
      destruct (selects_members _ _ _ _ Hsel Hj) as ([name g] & i & Hsi & Hi & Hpy).
      exfalso. apply (Hl g i ds); [|done|done|done].
      apply list_elem_of_lookup_1 in Hsi as [k Hk].
      rewrite enumerate_lookup in Hk.
      destruct (ids !! k) as [g'|] eqn:Hg; [|done].
      injection Hk as _ <-. by eapply list_elem_of_lookup_2.
    + by rewrite option_fmap_id.
  - intros v ck Hck. apply dict_fold_lookup_Some in Hck as [Hin|Hck]; [|done].
    split.
    + apply list_elem_of_lookup_1 in Hin as [k Hk].
      assert (is_Some (groups !! k)) as [g Hg].
      { apply lookup_lt_is_Some. apply lookup_lt_Some in Hk.
        rewrite <-(length_fmap fst), parts_of_keys, length_fmap in Hk. done. }
      destruct (parts_of_lookup groups σ k g Hg) as (σk & Hp & Hsub).
      rewrite Hp in Hk. injection Hk as _ <-.
      intros Hfresh. apply (init_value_fresh g.2 σk). by apply Hsub.
    + apply (parts_of_tables groups σ (v, ck) Hin).
Qed.

Lemma split_by_index_store_witness :
  ∃ m σ',
    BaseConcatDataset.split concat_abc None (Some [[0; 2]; [1]]) store0
    = (Ok m, σ')
    ∧ dom (series σ') = dom (series store0).
Proof.
  assert (Hok : is_ok (BaseConcatDataset.split concat_abc None
                         (Some [[0; 2]; [1]]) store0).1 = true)
    by (vm_compute; reflexivity).
  destruct (BaseConcatDataset.split concat_abc None (Some [[0; 2]; [1]]) store0)
    as [[m|e] σ'] eqn:Hrun; [|discriminate Hok].
  exists m, σ'. split; [reflexivity|].
  exact (proj1 (proj2 (split_by_index_store _ _ _ _ _ _ Hrun))).
Defined.

(** ** Assigning a description *)

(** X11.  Assigning to [description] of a concatenation: anything but a
    DataFrame raises [TypeError] and changes nothing; a DataFrame replaces
    the stored reference and nothing else: the children and the length are
    those of before, the store is untouched, and a later read that returns
    gives the new reference, having written to the new table only (the
    former table and the children's rows are as they were). *)
Theorem BaseConcatDataset_set_description (c : BaseConcatDataset.t)
    (new_desc : pyref) (σ : store) :
  ((∀ l, new_desc ≠ RDataFrame l) →
   BaseConcatDataset.set_description c new_desc σ
   = (Raise (TypeError
               "description must be a pandas DataFrame, got {type(new_desc)}."),
      σ))
  ∧ (∀ l', new_desc = RDataFrame l' →
     ∃ c',
       BaseConcatDataset.set_description c new_desc σ = (Ok c', σ)
       ∧ BaseConcatDataset.datasets c' = BaseConcatDataset.datasets c
       ∧ BaseConcatDataset.__len__ c' = BaseConcatDataset.__len__ c
       ∧ (∀ l σ2,
            BaseConcatDataset.description c' σ = (Ok l, σ2) →
            l = l' ∧ series σ2 = series σ
            ∧ ∀ l0, l0 ≠ l' → frames σ2 !! l0 = frames σ !! l0)).
Proof.
  split.
  - intros Hn. unfold BaseConcatDataset.set_description.
    by destruct new_desc as [l|l|v]; [|destruct (Hn l)|].
  - intros l' ->. eexists. split; [reflexivity|]. split; [done|]. split; [done|].
    intros l σ2. rewrite BaseConcatDataset_description_outcome.
    cbn [BaseConcatDataset.datasets BaseConcatDataset.super
         BaseConcatDataset._description].
    destruct (description_outcome _) as [st|e]; [|done].
    intros [= <- <-]. split; [done|]. split; [done|].
    intros l0 Hl0. simpl. by apply lookup_alter_ne.
Qed.

(** X12.  Assigning a Series to [description] of a [BaseDataset] replaces
    the stored reference only: the recording and the target are those of
    before (the target is not looked up again in the new row), and the store
    is untouched.  When the next read returns, it returns the new reference;
    the new row then carries the recording's ['sfreq'] and ['n_channels'],
    its other labels, holding values that a conversion to [float64] leaves
    as they are, are as they were, and every other row, the former one
    included, and every table are as they were. *)
Theorem BaseDataset_set_description (d : BaseDataset.t) (l' : loc) (r' : row)
    (σ : store) :
  series σ !! l' = Some r' →
  exact_row r' →
  ∃ d',
    BaseDataset.set_description d (RSeries l') σ = (Ok d', σ)
    ∧ BaseDataset.target d' = BaseDataset.target d
    ∧ BaseDataset.raw d' = BaseDataset.raw d
    ∧ ∀ l σ2,
        BaseDataset.description d' σ = (Ok l, σ2) →
        l = l'
        ∧ carries σ2 l' (raw_sfreq (BaseDataset.raw d))
            (length (raw_ch_names (BaseDataset.raw d)))
        ∧ (∀ k, k ≠ "sfreq" → k ≠ "n_channels" →
             series_at σ2 l' !! k = r' !! k)
        ∧ (∀ l0, l0 ≠ l' → series σ2 !! l0 = series σ !! l0)
        ∧ frames σ2 = frames σ.
Proof.
  intros Hr _. eexists. split; [reflexivity|]. split; [done|]. split; [done|].
  intros l σ2 Hrun.
  destruct (read_returns l' _ _ _
              (BaseDataset_description_at
                 (BaseDataset.mk (BaseDataset.raw d) l' (BaseDataset.target d)))
              σ r' l σ2 Hr Hrun) as (-> & Hc & Hother & Hrows & Hfr & _).
  done.
Qed.

Lemma BaseDataset_set_description_witness :
  ∃ d',
    BaseDataset.set_description
      (BaseDataset.mk raw_a 0%nat (PyInt 1)) (RSeries 1%nat) store0
    = (Ok d', store0)
    ∧ BaseDataset.target d' = PyInt 1.
Proof.
  destruct (BaseDataset_set_description (BaseDataset.mk raw_a 0%nat (PyInt 1))
              1%nat {["subject" := PyInt 2]} store0 eq_refl)
    as (d' & Hset & Ht & _).
  { apply map_Forall_singleton. apply float64_exact_PyInt. simpl. lia. }
  by exists d'.
Defined.

(** ** From construction to [split] by a property *)

(** What a [split] by property that returns has built, in terms of the
    column of the table, when the table is indexed by position. *)
Lemma split_by_property_groups (c : BaseConcatDataset.t) (prop : string)
    σ l σ1 m σ2 :
  BaseConcatDataset.description c σ = (Ok l, σ1) →
  BaseConcatDataset.split c (Some prop) None σ = (Ok m, σ2) →
  fr_index (frame_at σ1 l) = range_index (length (fr_rows (frame_at σ1 l))) →
  let vals := (λ row, cell row prop) <$> fr_rows (frame_at σ1 l) in
  (∀ v, v ∈ dom m ↔ v ∈ group_keys vals)
  ∧ (∀ v ck, m !! v = Some ck →
       Forall2 (λ z d, py_index (BaseConcatDataset.datasets c) z = Ok d)
         (positions vals v) (BaseConcatDataset.datasets ck)).
Proof.
  intros Hrun Hsplit Hidx vals. unfold BaseConcatDataset.split in Hsplit.
  rewrite M_bind_run, (M_bind_run (BaseConcatDataset.description c)) in Hsplit.
  rewrite Hrun in Hsplit. unfold frame_read in Hsplit. simpl in Hsplit.
  rewrite M_bind_lift in Hsplit. unfold groupby_groups in Hsplit.
  case_decide as Hcol; [|done]. fold vals in Hsplit.
  rewrite Hidx, <-(length_fmap (λ row, cell row prop)) in Hsplit.
  fold vals in Hsplit.
  rewrite (list_fmap_ext _ (λ v, (v, positions vals v)) (group_keys vals))
    in Hsplit by (intros; by rewrite group_labels_range).
  set (split_ids := (λ v, (v, positions vals v)) <$> group_keys vals) in *.
  assert (Hkeys : split_ids.*1 = group_keys vals).
  { unfold split_ids. rewrite <-list_fmap_compose. apply list_fmap_id. }
  pose proof (split_build_outcome c split_ids σ1) as Hvalid.
  rewrite Hsplit in Hvalid. simpl in Hvalid.
  destruct (selects_exist (BaseConcatDataset.datasets c) split_ids)
    as [groups Hsel].
  { eapply Forall_impl; [exact Hvalid|]. by intros si [? ?]. }
  destruct (split_build_spec c split_ids groups σ1 Hsel)
    as (m' & σ' & Hrun' & Hdom & Hgroups).
  { rewrite Hkeys. apply group_keys_NoDup. }
  rewrite Hsplit in Hrun'. injection Hrun' as <- <-.
  rewrite Hkeys in Hdom. split.
  - intros v. by rewrite Hdom, elem_of_list_to_set.
  - intros v ck Hck.
    assert (v ∈ group_keys vals) as Hv.
    { assert (v ∈ dom m) as Hin by (apply elem_of_dom; by eexists).
      rewrite Hdom in Hin. by apply elem_of_list_to_set in Hin. }
    apply list_elem_of_lookup_1 in Hv as [k Hk].
    destruct (Hgroups k v (positions vals v)) as (ck' & Hck' & Hch & _).
    { unfold split_ids. by rewrite list_lookup_fmap, Hk. }
    rewrite Hck in Hck'. by injection Hck' as <-.
Qed.

(** The cell of child [i] in the table that construction builds, before or
    after the columns are stamped: the value in the child's own row. *)
Lemma init_table_cell (children : list dataset) σ (i : nat) ds (r : row)
    (prop : string) (st : frame → frame) :
  children !! i = Some ds →
  series σ !! ds_loc ds = Some r →
  prop ≠ "sfreq" → prop ≠ "n_channels" → prop ≠ "n_times" →
  (∃ sf nc nt, st = stamp sf nc nt) →
  ((λ row, cell row prop)
     <$> fr_rows (st (frame_of_rows (rows_of children (refresh_all children σ)))))
    !! i
  = Some (cell r prop).
Proof.
  intros Hi Hr H1 H2 H3 (sf & nc & nt & ->).
  rewrite stamp_rows. unfold frame_of_rows, rows_of. cbn [fr_rows].
  rewrite !list_lookup_fmap, Hi. cbn [fmap option_fmap option_map].
  f_equal. unfold cell. rewrite !lookup_insert_ne by done.
  unfold series_at, refresh_all. cbn [series].
  rewrite refresh_series_lookup, Hr. cbn [fmap option_fmap option_map default].
  unfold id. destruct (last_write children (ds_loc ds)) as [w|]; [|done].
  by rewrite refresh_lookup_other.
Qed.

(** X13.  From construction to [split] by a property other than the three
    stamped ones.  If the concatenation has just been built from [children],
    its table is indexed by the children's positions (description rows
    without names) and [split] returns, then a child whose own description
    row carries a value for the property, one that a conversion to [float64]
    leaves as it is, is in the group labelled with that value and in no
    other group; a child whose row has no value for it (or None, or NaN) is
    in no group at all. *)
Theorem split_groups_by_own_value (children : list dataset) (σ σ1 σ2 : store)
    (c : BaseConcatDataset.t) (prop : string)
    (m : gmap pyval BaseConcatDataset.t) (i : nat) (ds : dataset) (r : row) :
  BaseConcatDataset.__init__ children σ = (Ok c, σ1) →
  fr_index (frame_at σ1 (BaseConcatDataset._description c))
  = range_index (length children) →
  BaseConcatDataset.split c (Some prop) None σ1 = (Ok m, σ2) →
  prop ≠ "sfreq" → prop ≠ "n_channels" → prop ≠ "n_times" →
  children !! i = Some ds →
  series σ !! ds_loc ds = Some r →
  float64_exact (cell r prop) →
  (isna (cell r prop) = false →
     ∃ ck, m !! cell r prop = Some ck ∧ ds ∈ BaseConcatDataset.datasets ck)
  ∧ (∀ v ck, m !! v = Some ck → ds ∈ BaseConcatDataset.datasets ck →
       v = cell r prop ∧ isna (cell r prop) = false).
Proof.
  intros Hinit Hidx Hsplit H1 H2 H3 Hi Hr _.
  apply BaseConcatDataset_init_Ok in Hinit as (Hne & -> & ->).
  set (c := init_value children σ) in *. set (σ1 := init_store children σ) in *.
  set (T0 := frame_of_rows (rows_of children (refresh_all children σ))).
  assert (HT0 : frame_at σ1 (BaseConcatDataset._description c) = T0)
    by (unfold frame_at, σ1, init_store; simpl; by rewrite lookup_insert_eq).
  rewrite HT0 in Hidx.
  assert (Hlen0 : length (fr_rows T0) = length children)
    by (unfold T0, frame_of_rows, rows_of; simpl; by rewrite !length_fmap).
  (* the read inside [split] has returned *)
  assert (∃ σ1' st, BaseConcatDataset.description c σ1
                    = (Ok (BaseConcatDataset._description c), σ1')
                    ∧ frame_at σ1' (BaseConcatDataset._description c) = st T0
                    ∧ ∃ sf nc nt, st = stamp sf nc nt)
    as (σ1' & st & Hrun & HT & Hst).
  { pose proof (BaseConcatDataset_description_outcome c σ1) as Hout.
    unfold description_outcome in Hout.
    destruct (BaseConcatDataset.description c σ1) as [[l|e] σ1'] eqn:Hd.
    - repeat case_decide; try done.
      destruct (BaseConcatDataset.datasets c) as [|d0 dss]; [done|].
      injection Hout as -> ->. eexists _, _. split; [done|]. split.
      + unfold frame_at. simpl.
        by rewrite lookup_alter_eq, lookup_insert_eq.
      + by eexists _, _, _.
    - exfalso. unfold BaseConcatDataset.split in Hsplit.
      rewrite M_bind_run, (M_bind_run (BaseConcatDataset.description c)) in Hsplit.
      by rewrite Hd in Hsplit. }
  destruct (split_by_property_groups c prop σ1 _ σ1' m σ2 Hrun Hsplit)
    as [Hdom Hgroups].
  { rewrite HT. destruct Hst as (sf & nc & nt & ->).
    by rewrite stamp_index, stamp_rows, length_fmap, Hlen0. }
  rewrite HT in Hdom, Hgroups.
  set (vals := (λ row, cell row prop) <$> fr_rows (st T0)) in *.
  assert (Hcell : ∀ j, children !! j = Some ds → vals !! j = Some (cell r prop)).
  { intros j Hj. unfold vals, T0.
    by apply (init_table_cell children σ j ds r prop st). }
  split.
  - intros Hna.
    assert (cell r prop ∈ dom m) as Hin.
    { apply Hdom, group_keys_elem. split; [|done].
      eapply list_elem_of_lookup_2. by apply Hcell. }
    apply elem_of_dom in Hin as [ck Hck]. exists ck. split; [done|].
    assert (Z.of_nat i ∈ positions vals (cell r prop)) as Hpos
      by (apply positions_elem; exists i; split; [done|by apply Hcell]).
    apply list_elem_of_lookup_1 in Hpos as [k Hk].
    destruct (Forall2_lookup_l _ _ _ _ _ (Hgroups _ _ Hck) Hk) as (d & Hd & Hpy).
    rewrite py_index_nat in Hpy. change (BaseConcatDataset.datasets c) with children in Hpy.
    rewrite Hi in Hpy. injection Hpy as <-. by eapply list_elem_of_lookup_2.
  - intros v ck Hck Hds.
    apply list_elem_of_lookup_1 in Hds as [k Hk].
    destruct (Forall2_lookup_r _ _ _ _ _ (Hgroups _ _ Hck) Hk) as (z & Hz & Hpy).
    apply list_elem_of_lookup_2, positions_elem in Hz as (j & -> & Hj).
    rewrite py_index_nat in Hpy. change (BaseConcatDataset.datasets c) with children in Hpy.
    destruct (children !! j) as [d|] eqn:Hcj; [|done]. injection Hpy as ->.
    rewrite (Hcell j Hcj) in Hj. injection Hj as <-. split; [done|].
    assert (cell r prop ∈ group_keys vals) as Hin
      by (apply Hdom, elem_of_dom; by eexists).
    by apply group_keys_elem in Hin as [_ ?].
Qed.

Lemma split_groups_by_own_value_witness :
  ∃ m σ2,
    BaseConcatDataset.split concat_ad (Some "subject") None store_ad
    = (Ok m, σ2)
    ∧ ∃ ck, m !! PyInt 1 = Some ck
            ∧ DBase ds_a ∈ BaseConcatDataset.datasets ck.
Proof.
  assert (Hne : [DBase ds_a; DBase ds_d] ≠ []) by discriminate.
  assert (Hok : is_ok (BaseConcatDataset.split concat_ad (Some "subject") None
                         store_ad).1 = true) by (vm_compute; reflexivity).
  destruct (BaseConcatDataset.split concat_ad (Some "subject") None store_ad)
    as [[m|e] σ2] eqn:Hsplit; [|discriminate Hok].
  exists m, σ2. split; [reflexivity|].
  refine (proj1 (split_groups_by_own_value [DBase ds_a; DBase ds_d]
                   store0 store_ad σ2 concat_ad "subject" m 0 (DBase ds_a)
                   {["subject" := PyInt 1]}
                   (BaseConcatDataset_init_run _ store0 Hne) _ Hsplit
                   _ _ _ eq_refl eq_refl _) eq_refl);
    [vm_compute; reflexivity|discriminate..|].
  apply (float64_exact_PyInt 1). simpl. lia.
Defined.

(** ** Local indices stay in range *)

(** X14.  Indexing a concatenation with a valid global index always calls a
    child with an index inside that child's own range [0 .. len(child) - 1]:
    a child without samples is never indexed, and no child is asked for an
    index at or beyond its length. *)
Theorem concat_getitem_local_bounds (children : list dataset) (σ σ' : store)
    (c : BaseConcatDataset.t) (i : nat) :
  BaseConcatDataset.__init__ children σ = (Ok c, σ') →
  (i < sum_list (ds_len <$> children))%nat →
  ∃ (k j : nat) ds,
    children !! k = Some ds
    ∧ (j < ds_len ds)%nat
    ∧ BaseConcatDataset.__getitem__ c (Z.of_nat i) = ds_getitem ds (Z.of_nat j).
Proof.
  intros Hinit Hi. apply BaseConcatDataset_init_Ok in Hinit as (Hne & -> & _).
  destruct (resolve_total _ i Hi) as [[k j] Hres].
  destruct (ConcatDataset_getitem_resolved children i k j Hres)
    as (ds & Hds & Hget).
  destruct (resolve_spec _ _ _ _ Hres) as (Hk & Hrange & ->).
  exists k, (i - prefix_sum (ds_len <$> children) k)%nat, ds.
  split; [done|]. split; [|done].
  assert (prefix_sum (ds_len <$> children) (S k)
          = (prefix_sum (ds_len <$> children) k + ds_len ds)%nat) as Hstep.
  { unfold prefix_sum.
    rewrite (take_S_r _ _ (ds_len ds)) by (by rewrite list_lookup_fmap, Hds).
    rewrite sum_list_with_app. simpl. unfold id. lia. }
  lia.
Qed.

Lemma concat_getitem_local_bounds_witness :
  ∃ (k j : nat) ds,
    [DBase ds_a; DBase ds_b] !! k = Some ds
    ∧ (j < ds_len ds)%nat
    ∧ BaseConcatDataset.__getitem__
        (init_value [DBase ds_a; DBase ds_b] store0) 4
      = ds_getitem ds (Z.of_nat j).
Proof.
  assert (Hne : [DBase ds_a; DBase ds_b] ≠ []) by discriminate.
  apply (concat_getitem_local_bounds [DBase ds_a; DBase ds_b] store0 _ _ 4
           (BaseConcatDataset_init_run _ store0 Hne)).
  simpl. lia.
Defined.

(** ** When the aggregate description can be read *)

(** X15.  A read of the aggregate description returns exactly when the
    concatenation is not empty, its children are all of one kind, and they
    agree on sampling rate, number of channels and number of time points.
    On children of both kinds the read raises [AttributeError] (the
    [BaseDataset] children have no [windows]), whatever their values, and so
    does [split] by a property; the store is left as it was. *)
Theorem description_readable_iff (c : BaseConcatDataset.t) (σ : store) :
  let dss := BaseConcatDataset.datasets c in
  (is_ok (BaseConcatDataset.description c σ).1 = true
   ↔ dss ≠ [] ∧ homogeneous dss
     ∧ (len_set (sfreqs dss) ≤ 1)%nat
     ∧ (len_set (channel_counts dss) ≤ 1)%nat
     ∧ (len_set (time_counts dss) ≤ 1)%nat)
  ∧ (¬ homogeneous dss →
     BaseConcatDataset.description c σ = (Raise (AttributeError "windows"), σ)
     ∧ ∀ prop,
         BaseConcatDataset.split c (Some prop) None σ
         = (Raise (AttributeError "windows"), σ)).
Proof.
  intros dss. split.
  - rewrite BaseConcatDataset_description_outcome. unfold description_outcome.
    fold dss. destruct (decide (homogeneous dss)) as [Hhom|Hmix].
    + repeat case_decide.
      1-3: split; [done|intros (_ & _ & ? & ? & ?); lia].
      destruct dss as [|d0 dss'].
      * split; [done|by intros [? _]].
      * split; [|done]. intros _. repeat split; done || lia.
    + split; [done|by intros (_ & ? & _)].
  - intros Hmix.
    pose proof (BaseConcatDataset_description_mixed c σ Hmix) as Hrun.
    split; [done|]. intros prop. unfold BaseConcatDataset.split.
    rewrite M_bind_run, (M_bind_run (BaseConcatDataset.description c)).
    by rewrite Hrun.
Qed.
